(** * The 2048 board of [main.go]: tilt, place, changed and Update

    The Go program keeps a 4x4 grid of [int] in a [board] together with four
    "faces".  A face is a slice of four singly linked lists of coordinates;
    each list names the cells of one line, starting at the edge the tiles
    move to.  [tilt] walks the lists of a face and rewrites the grid in
    place, [place] drops a 2 on a random free cell, [changed] compares the
    grid with a snapshot and [Update] glues the three together.

    Conventions of the embedding:
    - Go's [int] is taken as the 64-bit two's complement integer of the
      common targets; a value is a [Z] and [*= 2] wraps through [wrap].
    - A [*node] is the list of nodes reachable from it, [nil] is [[]].
    - [[][]int] is [list (list Z)]; an index out of range panics, and a
      panic is [None] in the [option] monad.
    - The random source is not modelled; the caller passes the raw draw
      and [Intn] reduces it, so every draw in [0, n) can be obtained. *)

From Stdlib Require Import ZArith List Bool Lia Sorted.
From Stdlib Require String.
Import ListNotations.
Import String.StringSyntax.
Delimit Scope string_scope with string.
Local Open Scope Z_scope.

(** ** Panics as [option] *)

Definition bind {A B : Type} (c : option A) (k : A -> option B) : option B :=
  match c with
  | Some a => k a
  | None => None
  end.

Notation "x <- c ;; k" := (bind c (fun x => k))
  (at level 61, c at next level, right associativity).

(** ** Machine integers *)

Definition int_bits : Z := 64.
Definition int_min : Z := - 2 ^ (int_bits - 1).
Definition int_max : Z := 2 ^ (int_bits - 1) - 1.

(** Two's complement reduction of a mathematical integer to an [int]. *)
Definition wrap (z : Z) : Z :=
  (z + 2 ^ (int_bits - 1)) mod 2 ^ int_bits - 2 ^ (int_bits - 1).

(** ** Nodes, lists and faces *)

(** [type node struct { x, y int; next *node }]: the [next] pointer is the
    tail of the list the node heads. *)
Record node : Type := mkNode { nx : nat; ny : nat }.

Definition coords (n : node) : nat * nat := (nx n, ny n).

Definition node_eqb (n m : node) : bool :=
  Nat.eqb (nx n) (nx m) && Nat.eqb (ny n) (ny m).

Definition face : Type := list (list node).

Record board : Type := mkBoard {
  grid : list (list Z);
  top : face;
  right : face;
  bottom : face;
  left : face
}.

(** ** Grid cells: [grid[y][x]] and [grid[y][x] = v] *)

Definition get (g : list (list Z)) (x y : nat) : option Z :=
  row <- nth_error g y ;; nth_error row x.

Fixpoint update {A : Type} (l : list A) (i : nat) (v : A) : option (list A) :=
  match l, i with
  | [], _ => None
  | _ :: tl, O => Some (v :: tl)
  | hd :: tl, S i' => tl' <- update tl i' v ;; Some (hd :: tl')
  end.

Definition set (g : list (list Z)) (x y : nat) (v : Z) : option (list (list Z)) :=
  row <- nth_error g y ;;
  row' <- update row x v ;;
  update g y row'.

(** ** createBoard *)

(** The list built by [list := &node{..}; for j := 1; j < 4; j++ { curr.next = ... }]:
    [hd] is the head, [nxt j] the node appended at step [j]. *)
Definition chain (hd : node) (nxt : nat -> node) : list node :=
  hd :: map nxt [1; 2; 3]%nat.

Definition createBoard : board :=
  {| grid := repeat (repeat 0 4) 4;
     top := map (fun i => chain (mkNode i 0) (fun j => mkNode i j)) [0; 1; 2; 3]%nat;
     right := map (fun i => chain (mkNode 3 i) (fun j => mkNode (3 - j) i)) [0; 1; 2; 3]%nat;
     bottom := map (fun i => chain (mkNode i 3) (fun j => mkNode i (3 - j))) [0; 1; 2; 3]%nat;
     left := map (fun i => chain (mkNode 0 i) (fun j => mkNode j i)) [0; 1; 2; 3]%nat |}.

Definition with_grid (b : board) (g : list (list Z)) : board :=
  {| grid := g; top := top b; right := right b; bottom := bottom b; left := left b |}.

(** ** tilt *)

(** [for p != nil && grid[p.y][p.x] == 0 { p = p.next }] *)
Fixpoint skip_zero (g : list (list Z)) (p : list node) : option (list node) :=
  match p with
  | [] => Some []
  | n :: tl =>
      v <- get g (nx n) (ny n) ;;
      if v =? 0 then skip_zero g tl else Some p
  end.

(** The first loop of [tilt], [for a != nil && b != nil { ... }].  One unit
    of fuel is one iteration; [a] is the cursor on entry.  The cursor [b] is
    assigned inside the body before it is read and is [nil] at the end of
    an iteration only on the path that leaves the loop. *)
Fixpoint merge_loop (fuel : nat) (g : list (list Z)) (a : list node)
  : option (list (list Z)) :=
  match fuel with
  | O => Some g
  | S fuel' =>
      a1 <- skip_zero g a ;;
      match a1 with
      | [] => Some g
      | an :: anext =>
          b1 <- skip_zero g anext ;;
          match b1 with
          | [] => Some g
          | bn :: _ =>
              let '(ax, ay) := coords an in
              let '(bx, by_) := coords bn in
              va <- get g ax ay ;;
              vb <- get g bx by_ ;;
              g' <- (if va =? vb
                     then g1 <- set g ax ay 0 ;;
                          vb1 <- get g1 bx by_ ;;
                          set g1 bx by_ (wrap (vb1 * 2))
                     else Some g) ;;
              merge_loop fuel' g' anext
          end
      end
  end.

(** [for b != nil { if grid[b] != 0 { swap; break }; b = b.next }] with
    [(ax, ay)] the empty cell found by the caller. *)
Fixpoint pull (g : list (list Z)) (ax ay : nat) (b : list node)
  : option (list (list Z)) :=
  match b with
  | [] => Some g
  | bn :: bnext =>
      let '(bx, by_) := coords bn in
      vb <- get g bx by_ ;;
      if negb (vb =? 0)
      then va <- get g ax ay ;;
           g1 <- set g ax ay vb ;;
           set g1 bx by_ va
      else pull g ax ay bnext
  end.

(** The second loop, [for i := 0; i < 3; i++ { ... a = a.next }]; [n] counts
    the iterations left.  [a.coords()] on a nil [a] panics. *)
Fixpoint shift_loop (n : nat) (g : list (list Z)) (a : list node)
  : option (list (list Z)) :=
  match n with
  | O => Some g
  | S n' =>
      match a with
      | [] => None
      | an :: anext =>
          let '(ax, ay) := coords an in
          va <- get g ax ay ;;
          g' <- (if va =? 0 then pull g ax ay anext else Some g) ;;
          shift_loop n' g' anext
      end
  end.

(** The body of [for _, list := range face]. *)
Definition tilt_list (g : list (list Z)) (l : list node) : option (list (list Z)) :=
  g1 <- merge_loop (length l) g l ;;
  shift_loop 3 g1 l.

Fixpoint tilt_grid (g : list (list Z)) (f : face) : option (list (list Z)) :=
  match f with
  | [] => Some g
  | l :: f' => g1 <- tilt_list g l ;; tilt_grid g1 f'
  end.

Definition tilt (b : board) (f : face) : option board :=
  g <- tilt_grid (grid b) f ;; Some (with_grid b g).

(** ** place *)

(** The inner [for x := range b.grid[y]] of [place], from column [x] on. *)
Fixpoint row_options (row : list Z) (x y : nat) : list node :=
  match row with
  | [] => []
  | v :: tl =>
      (if v =? 0 then [mkNode x y] else []) ++ row_options tl (S x) y
  end.

(** The outer [for y := range b.grid], from row [y] on. *)
Fixpoint grid_options (g : list (list Z)) (y : nat) : list node :=
  match g with
  | [] => []
  | row :: tl => row_options row 0 y ++ grid_options tl (S y)
  end.

Definition options (g : list (list Z)) : list node := grid_options g 0.

(** [r.Intn(n)] panics for [n <= 0] and otherwise returns a number below
    [n]; [rnd] is the raw draw of the generator. *)
Definition Intn (rnd n : nat) : option nat :=
  if Nat.eqb n 0 then None else Some (Nat.modulo rnd n).

Definition place (b : board) (rnd : nat) : option board :=
  let opts := options (grid b) in
  i <- Intn rnd (length opts) ;;
  item <- nth_error opts i ;;
  let '(x, y) := coords item in
  g <- set (grid b) x y 2 ;;
  Some (with_grid b g).

(** ** changed *)

Fixpoint changed_row (row : list Z) (prev : list (list Z)) (x y : nat)
  : option bool :=
  match row with
  | [] => Some false
  | v :: tl =>
      p <- get prev x y ;;
      if negb (v =? p) then Some true else changed_row tl prev (S x) y
  end.

Fixpoint changed_rows (g prev : list (list Z)) (y : nat) : option bool :=
  match g with
  | [] => Some false
  | row :: tl =>
      c <- changed_row row prev 0 y ;;
      if c then Some true else changed_rows tl prev (S y)
  end.

Definition changed (b : board) (prev : list (list Z)) : option bool :=
  changed_rows (grid b) prev 0.

(** ** The model and Update *)

Record model : Type := mkModel { m_board : board }.

Definition createModel (rnd1 rnd2 : nat) : option model :=
  b1 <- place createBoard rnd1 ;;
  b2 <- place b1 rnd2 ;;
  Some (mkModel b2).

(** [tea.Msg]: a key press with the text of [msg.String()], or any other
    message. *)
Inductive Msg : Type :=
| KeyMsg (s : String.string)
| OtherMsg.

(** [tea.Cmd]: [tea.Quit] or [nil]. *)
Inductive Cmd : Type :=
| Quit
| NoCmd.

(** [row := make([]int, 4); copy(row, src)] *)
Definition copy4 (src : list Z) : list Z :=
  firstn 4 src ++ repeat 0 (4 - length src).

(** [for y := range grid { ...; prev[y] = row }] from row [y] on. *)
Fixpoint snapshot_rows (g : list (list Z)) (y : nat) (prev : list (list Z))
  : option (list (list Z)) :=
  match g with
  | [] => Some prev
  | row :: tl =>
      prev' <- update prev y (copy4 row) ;;
      snapshot_rows tl (S y) prev'
  end.

Definition snapshot (g : list (list Z)) : option (list (list Z)) :=
  snapshot_rows g 0 (repeat [] 4).

Definition key_in (s : String.string) (ks : list String.string) : bool :=
  existsb (String.eqb s) ks.

(** The [switch msg.String()] of [Update]; [None] in the result of the
    outer [option] stands for the [return m, tea.Quit] of the first case. *)
Definition handle_key (b : board) (s : String.string) : option (option board) :=
  if key_in s ["ctrl+c"; "q"]%string then Some None
  else if key_in s ["left"; "h"]%string then b' <- tilt b (left b) ;; Some (Some b')
  else if key_in s ["up"; "k"]%string then b' <- tilt b (top b) ;; Some (Some b')
  else if key_in s ["right"; "l"]%string then b' <- tilt b (right b) ;; Some (Some b')
  else if key_in s ["down"; "j"]%string then b' <- tilt b (bottom b) ;; Some (Some b')
  else Some (Some b).

Definition Update (m : model) (msg : Msg) (rnd : nat) : option (model * Cmd) :=
  prev <- snapshot (grid (m_board m)) ;;
  r <- match msg with
       | KeyMsg s => handle_key (m_board m) s
       | OtherMsg => Some (Some (m_board m))
       end ;;
  match r with
  | None => Some (m, Quit)
  | Some b =>
      c <- changed b prev ;;
      if c
      then b' <- place b rnd ;; Some (mkModel b', NoCmd)
      else Some (mkModel b, NoCmd)
  end.

(** ** A ghost log of the merges *)

(** One execution of the two assignments [grid[ay][ax] = 0; grid[by][bx] *= 2]:
    the cell emptied, the cell doubled, and the value both held. *)
Record merge : Type := mkMerge { m_src : node; m_dst : node; m_val : Z }.

(** [merge_loop] with the log threaded through; the grid it computes is the
    one of [merge_loop] (lemma [merge_loop_log_grid]). *)
Fixpoint merge_loop_log (fuel : nat) (g : list (list Z)) (a : list node)
  : option (list (list Z) * list merge) :=
  match fuel with
  | O => Some (g, [])
  | S fuel' =>
      a1 <- skip_zero g a ;;
      match a1 with
      | [] => Some (g, [])
      | an :: anext =>
          b1 <- skip_zero g anext ;;
          match b1 with
          | [] => Some (g, [])
          | bn :: _ =>
              let '(ax, ay) := coords an in
              let '(bx, by_) := coords bn in
              va <- get g ax ay ;;
              vb <- get g bx by_ ;;
              r <- (if va =? vb
                    then g1 <- set g ax ay 0 ;;
                         vb1 <- get g1 bx by_ ;;
                         g2 <- set g1 bx by_ (wrap (vb1 * 2)) ;;
                         Some (g2, [mkMerge an bn va])
                    else Some (g, [])) ;;
              r' <- merge_loop_log fuel' (fst r) anext ;;
              Some (fst r', snd r ++ snd r')
          end
      end
  end.

Definition tilt_list_log (g : list (list Z)) (l : list node)
  : option (list (list Z) * list merge) :=
  r <- merge_loop_log (length l) g l ;;
  g2 <- shift_loop 3 (fst r) l ;;
  Some (g2, snd r).

Fixpoint tilt_grid_log (g : list (list Z)) (f : face)
  : option (list (list Z) * list merge) :=
  match f with
  | [] => Some (g, [])
  | l :: f' =>
      r <- tilt_list_log g l ;;
      r' <- tilt_grid_log (fst r) f' ;;
      Some (fst r', snd r ++ snd r')
  end.

(** * Vocabulary of the statements

    Nothing below is part of the program: these are the notions the
    properties are stated with. *)

(** The values a list of nodes names, head first. *)
Definition reads (g : list (list Z)) (l : list node) : list Z :=
  map (fun n => match get g (nx n) (ny n) with Some v => v | None => 0 end) l.

(** Store [vals] in the cells a list of nodes names. *)
Fixpoint writes (g : list (list Z)) (l : list node) (vals : list Z)
  : list (list Z) :=
  match l, vals with
  | n :: l', v :: vals' =>
      match set g (nx n) (ny n) v with
      | Some g' => writes g' l' vals'
      | None => g
      end
  | _, _ => g
  end.

(** The cells of a one-row grid, left to right. *)
Definition row0 : list node := [mkNode 0 0; mkNode 1 0; mkNode 2 0; mkNode 3 0].

(** [tilt]'s loop body run on a line standing alone. *)
Definition line (l : list Z) : list Z :=
  match tilt_list [l] row0 with
  | Some (r :: _) => r
  | _ => l
  end.

Definition line_log (l : list Z) : list merge :=
  match tilt_list_log [l] row0 with
  | Some (_, log) => log
  | None => []
  end.

(** Move a merge logged on a line standing alone to the cells of [l]. *)
Definition relocate (l : list node) (m : merge) : merge :=
  mkMerge (nth (nx (m_src m)) l (m_src m)) (nth (nx (m_dst m)) l (m_dst m)) (m_val m).

(** A grid of four rows of four cells, written out. *)
Abbreviation g4 c00 c01 c02 c03 c10 c11 c12 c13 c20 c21 c22 c23 c30 c31 c32 c33 :=
  [[c00; c01; c02; c03]; [c10; c11; c12; c13];
   [c20; c21; c22; c23]; [c30; c31; c32; c33]] (only parsing).

Arguments wrap : simpl never.

(** The grids [createBoard] and [tilt] work on: four rows of four cells. *)
Definition wf4 (g : list (list Z)) : Prop :=
  length g = 4%nat /\ Forall (fun row => length row = 4%nat) g.

(** The board of [createBoard] holding the grid [g]. *)
Definition board_of (g : list (list Z)) : board := with_grid createBoard g.

(** The four faces, named as the moves of [Update] name them. *)
Inductive direction : Type := Up | Down | Left | Right.

Definition face_of (b : board) (d : direction) : face :=
  match d with
  | Up => top b
  | Down => bottom b
  | Left => left b
  | Right => right b
  end.

(** The sixteen lists of the four faces. *)
Definition all_lists : list (list node) :=
  top createBoard ++ right createBoard ++ bottom createBoard ++ left createBoard.

(** Some cell of the grid is empty. *)
Definition has_zero (g : list (list Z)) : Prop :=
  exists x y, get g x y = Some 0.

(** Row-major order on coordinates: by row, then by column. *)
Definition row_major (n m : node) : Prop :=
  (ny n < ny m)%nat \/ (ny n = ny m /\ (nx n < nx m)%nat).

Arguments line : simpl never.
Arguments line_log : simpl never.

(** No empty cell lies before a tile. *)
Definition compacted (l : list Z) : Prop :=
  forall i j, (i < j < length l)%nat -> nth j l 0 <> 0 -> nth i l 0 <> 0.

(** No tile is followed at once by an equal tile. *)
Definition no_pair (l : list Z) : Prop :=
  forall i, (S i < length l)%nat -> nth i l 0 <> 0 -> nth i l 0 <> nth (S i) l 0.

(** Sums, of a list and of all the cells of a grid, as integers. *)
Definition zsum (l : list Z) : Z := fold_right Z.add 0 l.

Definition grid_sum (g : list (list Z)) : Z := zsum (map zsum g).

(** Two grids are equal or differ in a cell. *)
Definition grid_eq_dec (g g' : list (list Z)) : {g = g'} + {g <> g'} :=
  list_eq_dec (list_eq_dec Z.eq_dec) g g'.

(** The keys [Update] binds to each face. *)
Definition keys_of (d : direction) : list String.string :=
  match d with
  | Left => ["left"; "h"]%string
  | Up => ["up"; "k"]%string
  | Right => ["right"; "l"]%string
  | Down => ["down"; "j"]%string
  end.

(** What is left of [Update] once the board has moved from [g] to [g']. *)
Definition settle (g g' : list (list Z)) (rnd : nat) : option (model * Cmd) :=
  if grid_eq_dec g' g then Some (mkModel (board_of g'), NoCmd)
  else b' <- place (board_of g') rnd ;; Some (mkModel b', NoCmd).

(** Some grids to run the statements on. *)
Definition sample : list (list Z) :=
  [[2; 2; 4; 0]; [0; 4; 0; 4]; [2; 0; 0; 2]; [8; 8; 16; 16]].

Definition settled : list (list Z) :=
  [[2; 4; 2; 0]; [4; 0; 0; 0]; [0; 0; 0; 0]; [2; 4; 8; 16]].

Definition four_twos : list (list Z) :=
  [[2; 2; 2; 2]; [0; 0; 0; 0]; [0; 0; 0; 0]; [0; 0; 0; 0]].

(** The number of tiles of a line. *)
Definition tiles (l : list Z) : nat := length (filter (fun v => negb (v =? 0)) l).

(** How often the log empties, doubles, or touches the cell [n]. *)
Definition zeroed_times (lg : list merge) (n : node) : nat :=
  length (filter (fun m => node_eqb (m_src m) n) lg).

Definition doubled_times (lg : list merge) (n : node) : nat :=
  length (filter (fun m => node_eqb (m_dst m) n) lg).

Definition merges_of (lg : list merge) (n : node) : nat :=
  length (filter (fun m => node_eqb (m_src m) n || node_eqb (m_dst m) n) lg).

(** What the merges of a log would add if each added the value of its
    tiles: the number of merges times that value, merge by merge. *)
Definition merge_gain (lg : list merge) : Z := zsum (map m_val lg).

Definition full_grid : list (list Z) :=
  [[2; 4; 2; 4]; [4; 2; 4; 2]; [2; 4; 2; 4]; [4; 2; 4; 2]].

Definition two_twos : list (list Z) :=
  [[2; 2; 0; 0]; [0; 0; 0; 0]; [0; 0; 0; 0]; [0; 0; 0; 0]].

(** 1 when [v] is a tile of rank at least [k], that is [2 ^ k <= v]. *)
Definition ind (k v : Z) : Z := if k <=? Z.log2 v then 1 else 0.

(** The number of tiles of rank at least [k]. *)
Definition rank_count (k : Z) (cells : list Z) : Z := zsum (map (ind k) cells).

(** Empty, or a power of two from 2 to 65536. *)
Definition tile16 (v : Z) : Prop := v = 0 \/ exists e, 1 <= e <= 16 /\ v = 2 ^ e.

(** A tile of rank [k] needs [k - 1] more cells to have been built: the
    tiles of rank [k] and more leave room for them. *)
Definition bounded_cells (cells : list Z) : Prop :=
  Forall tile16 cells /\ forall k, 1 <= k <= 16 -> rank_count k cells + k <= 17.

(** The invariant of the reachable grids. *)
Definition bounded (g : list (list Z)) : Prop := wf4 g /\ bounded_cells (concat g).

(** The models the program can hold: the one [createModel] returns, and
    the one any [Update] returns from those. *)
Inductive reachable : model -> Prop :=
| reach_init rnd1 rnd2 m :
    createModel rnd1 rnd2 = Some m -> reachable m
| reach_step m msg rnd m' c :
    reachable m -> Update m msg rnd = Some (m', c) -> reachable m'.

(** Empty, or a power of two from 2 on. *)
Definition tile (v : Z) : Prop := v = 0 \/ exists e, 1 <= e /\ v = 2 ^ e.

(** [createModel 5 7], then the key h with draw 3, then up with draw 11. *)
Definition after_two_moves : model :=
  mkModel (board_of [[4; 0; 0; 2]; [0; 0; 0; 0]; [0; 0; 0; 0]; [0; 2; 0; 0]]).

(** ** For the rest of the program *)

(** The number of tiles of a grid. *)
Definition grid_tiles (g : list (list Z)) : nat := tiles (concat g).

(** A grid seen in a mirror: each row reversed, the rows reversed, and rows
    and columns exchanged. *)
Definition mirror (g : list (list Z)) : list (list Z) := map (@rev Z) g.

Definition flip (g : list (list Z)) : list (list Z) := rev g.

Definition transpose4 (g : list (list Z)) : list (list Z) :=
  map (fun x => map (fun row => nth x row 0) g) [0; 1; 2; 3]%nat.

(** A grid that shares its second column with [sample]. *)
Definition sample_column : list (list Z) :=
  [[0; 2; 0; 0]; [9; 4; 9; 9]; [9; 0; 9; 9]; [9; 8; 9; 9]].

(** The keys [Update] reads: the eight that move and the two that quit. *)
Definition move_keys : list String.string :=
  keys_of Left ++ keys_of Up ++ keys_of Right ++ keys_of Down.

Definition quit_keys : list String.string := ["ctrl+c"; "q"]%string.

(** [after_two_moves], then the key l with draw 1. *)
Definition after_three_moves : model :=
  mkModel (board_of [[0; 2; 4; 2]; [0; 0; 0; 0]; [0; 0; 0; 0]; [0; 0; 0; 2]]).

(** [sample] after [place] with draw 9. *)
Definition sample_spawned : list (list Z) :=
  [[2; 2; 4; 0]; [0; 4; 0; 4]; [2; 0; 2; 2]; [8; 8; 16; 16]].

(** * Properties *)

(** ** Panics *)

Lemma bind_some {A B} (c : option A) (k : A -> option B) r :
  bind c k = Some r <-> exists a, c = Some a /\ k a = Some r.
Proof.
  destruct c as [a|]; simpl; split.
  - intros H; exists a; auto.
  - intros (a' & E & H); injection E as <-; exact H.
  - discriminate.
  - intros (a' & E & _); discriminate.
Qed.

Ltac inv_bind H :=
  let x := fresh "x" in
  let E := fresh "E" in
  apply bind_some in H; destruct H as (x & E & H).

(** ** Grids of four by four *)

Lemma wf4_g4 g :
  wf4 g ->
  exists c00 c01 c02 c03 c10 c11 c12 c13 c20 c21 c22 c23 c30 c31 c32 c33,
    g = g4 c00 c01 c02 c03 c10 c11 c12 c13 c20 c21 c22 c23 c30 c31 c32 c33.
Proof.
  intros [Hl Hr].
  destruct g as [|r0 [|r1 [|r2 [|r3 [|? ?]]]]]; try discriminate Hl.
  clear Hl. repeat (apply Forall_cons_iff in Hr; destruct Hr as [? Hr]).
  cbv beta in *.
  repeat match goal with
         | H : length ?r = 4%nat |- _ =>
             destruct r as [|? [|? [|? [|? [|? ?]]]]]; try discriminate H; clear H
         end.
  repeat eexists.
Qed.

Lemma wf4_of_g4 c00 c01 c02 c03 c10 c11 c12 c13 c20 c21 c22 c23 c30 c31 c32 c33 :
  wf4 (g4 c00 c01 c02 c03 c10 c11 c12 c13 c20 c21 c22 c23 c30 c31 c32 c33).
Proof. split; [reflexivity | repeat constructor]. Qed.

(** ** The first loop ends within one iteration per node *)

Lemma skip_zero_length g p : forall q,
  skip_zero g p = Some q -> (length q <= length p)%nat.
Proof.
  induction p as [|n tl IH]; intros q H; simpl in H.
  - injection H as <-. simpl. lia.
  - inv_bind H. destruct (x =? 0).
    + specialize (IH q H). simpl. lia.
    + injection H as <-. simpl. lia.
Qed.

Lemma merge_loop_more_fuel fuel : forall g a,
  (length a <= fuel)%nat -> merge_loop (S fuel) g a = merge_loop fuel g a.
Proof.
  induction fuel as [|fuel IH]; intros g a Hlen.
  - destruct a; [reflexivity | simpl in Hlen; lia].
  - change (merge_loop (S (S fuel)) g a) with
      (a1 <- skip_zero g a ;;
       match a1 with
       | [] => Some g
       | an :: anext =>
           b1 <- skip_zero g anext ;;
           match b1 with
           | [] => Some g
           | bn :: _ =>
               let '(ax, ay) := coords an in
               let '(bx, by_) := coords bn in
               va <- get g ax ay ;;
               vb <- get g bx by_ ;;
               g' <- (if va =? vb
                      then g1 <- set g ax ay 0 ;;
                           vb1 <- get g1 bx by_ ;;
                           set g1 bx by_ (wrap (vb1 * 2))
                      else Some g) ;;
               merge_loop (S fuel) g' anext
           end
       end).
    cbn [merge_loop].
    destruct (skip_zero g a) as [[|an anext]|] eqn:Ea; cbn [bind]; try reflexivity.
    destruct (skip_zero g anext) as [[|bn bnext]|]; cbn [bind]; try reflexivity.
    cbn [coords].
    destruct (get g (nx an) (ny an)) as [va|]; cbn [bind]; [|reflexivity].
    destruct (get g (nx bn) (ny bn)) as [vb|]; cbn [bind]; [|reflexivity].
    apply skip_zero_length in Ea. simpl in Ea.
    match goal with
    | |- bind ?c _ = bind ?c _ => destruct c as [g'|]; cbn [bind]; [|reflexivity]
    end.
    apply IH. lia.
Qed.

(** Any fuel from the length of the list on gives the same grid: the loop
    has ended by then. *)
Lemma merge_loop_fuel fuel g a :
  (length a <= fuel)%nat -> merge_loop fuel g a = merge_loop (length a) g a.
Proof.
  intros H. induction H as [|fuel H IH]; [reflexivity|].
  rewrite merge_loop_more_fuel by exact H. exact IH.
Qed.

(** ** Erasing the log *)

Lemma merge_loop_log_grid fuel : forall g a,
  merge_loop fuel g a = option_map fst (merge_loop_log fuel g a).
Proof.
  induction fuel as [|fuel IH]; intros g a; simpl; [reflexivity|].
  destruct (skip_zero g a) as [[|an anext]|]; simpl; try reflexivity.
  destruct (skip_zero g anext) as [[|bn ?]|]; simpl; try reflexivity.
  destruct (get g (nx an) (ny an)) as [va|]; simpl; [|reflexivity].
  destruct (get g (nx bn) (ny bn)) as [vb|]; simpl; [|reflexivity].
  destruct (va =? vb); simpl.
  - destruct (set g (nx an) (ny an) 0) as [g1|]; simpl; [|reflexivity].
    destruct (get g1 (nx bn) (ny bn)) as [vb1|]; simpl; [|reflexivity].
    destruct (set g1 (nx bn) (ny bn) (wrap (vb1 * 2))) as [g2|]; simpl; [|reflexivity].
    rewrite IH. destruct (merge_loop_log fuel g2 anext); reflexivity.
  - rewrite IH. destruct (merge_loop_log fuel g anext); reflexivity.
Qed.

Lemma tilt_list_log_grid g l :
  tilt_list g l = option_map fst (tilt_list_log g l).
Proof.
  unfold tilt_list, tilt_list_log. rewrite merge_loop_log_grid.
  destruct (merge_loop_log (length l) g l) as [[g1 lg]|];
    cbn [bind option_map fst snd]; [|reflexivity].
  destruct (shift_loop 3 g1 l); reflexivity.
Qed.

Lemma tilt_grid_log_grid f : forall g,
  tilt_grid g f = option_map fst (tilt_grid_log g f).
Proof.
  induction f as [|l f IH]; intros g; cbn [tilt_grid tilt_grid_log]; [reflexivity|].
  rewrite tilt_list_log_grid.
  destruct (tilt_list_log g l) as [[g1 lg]|]; cbn [bind option_map fst snd]; [|reflexivity].
  rewrite IH. destruct (tilt_grid_log g1 f); reflexivity.
Qed.

(** ** A list of the grid runs as a line alone *)

Ltac split_test :=
  match goal with
  | H : Z.eqb ?x ?y = _ |- context [Z.eqb ?x ?y] => rewrite H
  | |- context [Z.eqb ?x ?y] => destruct (Z.eqb x y) eqn:?
  end.

Ltac run_cases := cbn; repeat (split_test; cbn).

Lemma tilt_list_frame c00 c01 c02 c03 c10 c11 c12 c13 c20 c21 c22 c23 c30 c31 c32 c33 l :
  let g := g4 c00 c01 c02 c03 c10 c11 c12 c13 c20 c21 c22 c23 c30 c31 c32 c33 in
  In l all_lists ->
  tilt_list_log g l =
    Some (writes g l (line (reads g l)), map (relocate l) (line_log (reads g l))).
Proof.
  intros g H. subst g.
  cbv [all_lists createBoard top right bottom left chain map app Nat.sub] in H.
  simpl in H.
  repeat (destruct H as [<- | H];
          [unfold line, line_log, tilt_list_log, tilt_list, row0;
           run_cases; reflexivity|]).
  contradiction.
Qed.

Lemma line_shape a b c d :
  exists a' b' c' d', line [a; b; c; d] = [a'; b'; c'; d'].
Proof.
  unfold line, tilt_list, row0. run_cases; repeat eexists.
Qed.

(** ** Cells: reading after writing *)

Lemma update_some {A} (l : list A) : forall i v,
  (i < length l)%nat -> exists l', update l i v = Some l'.
Proof.
  induction l as [|hd tl IH]; intros i v Hi; simpl in Hi; [lia|].
  destruct i as [|i]; simpl; [eauto|].
  destruct (IH i v) as (tl' & ->); [lia|]. simpl; eauto.
Qed.

Lemma update_split {A} (l : list A) : forall i v l',
  update l i v = Some l' ->
  exists l1 old l2, l = l1 ++ old :: l2 /\ l' = l1 ++ v :: l2 /\ length l1 = i.
Proof.
  induction l as [|hd tl IH]; intros i v l' H; simpl in H.
  - destruct i; discriminate.
  - destruct i as [|i].
    + injection H as <-. exists [], hd, tl; auto.
    + apply bind_some in H. destruct H as (tl' & H & E). injection E as <-.
      destruct (IH _ _ _ H) as (l1 & old & l2 & -> & -> & <-).
      exists (hd :: l1), old, l2; auto.
Qed.

Lemma nth_error_mid {A} (l1 l2 : list A) x : nth_error (l1 ++ x :: l2) (length l1) = Some x.
Proof. rewrite nth_error_app2, Nat.sub_diag by lia. reflexivity. Qed.

Lemma nth_error_mid_other {A} (l1 l2 : list A) x y j :
  j <> length l1 -> nth_error (l1 ++ x :: l2) j = nth_error (l1 ++ y :: l2) j.
Proof.
  intros Hj. destruct (Nat.lt_ge_cases j (length l1)).
  - rewrite !nth_error_app1 by lia. reflexivity.
  - rewrite !nth_error_app2 by lia.
    destruct (j - length l1)%nat eqn:E; [lia | reflexivity].
Qed.

(** What an assignment [grid[y][x] = v] that does not panic has done. *)
Lemma set_spec g x y v g' :
  set g x y v = Some g' ->
  (exists old, get g x y = Some old) /\
  get g' x y = Some v /\
  (forall x' y', (x', y') <> (x, y) -> get g' x' y' = get g x' y') /\
  map (@length Z) g' = map (@length Z) g.
Proof.
  unfold set, get. intros H.
  apply bind_some in H. destruct H as (row & Hrow & H).
  apply bind_some in H. destruct H as (row' & Hrow' & H).
  apply update_split in Hrow'. destruct Hrow' as (r1 & old & r2 & -> & -> & <-).
  apply update_split in H. destruct H as (g1 & orow & g2 & -> & -> & <-).
  rewrite nth_error_mid in Hrow. injection Hrow as ->.
  repeat split.
  - exists old. rewrite nth_error_mid. simpl. apply nth_error_mid.
  - rewrite nth_error_mid. simpl. apply nth_error_mid.
  - intros x' y' Hne.
    destruct (Nat.eq_dec y' (length g1)) as [->|Hy].
    + rewrite !nth_error_mid. simpl. apply nth_error_mid_other. congruence.
    + rewrite (nth_error_mid_other g1 g2 _ (r1 ++ old :: r2)) by exact Hy. reflexivity.
  - rewrite !map_app. simpl. rewrite !length_app. reflexivity.
Qed.

Lemma set_some g x y v old :
  get g x y = Some old -> exists g', set g x y v = Some g'.
Proof.
  unfold get, set. intros H. apply bind_some in H. destruct H as (row & Hrow & H).
  rewrite Hrow. simpl.
  assert (Hx : (x < length row)%nat) by (apply nth_error_Some; congruence).
  destruct (update_some row x v Hx) as (row' & ->). simpl.
  apply update_some. apply nth_error_Some. congruence.
Qed.

(** ** The free cells and place *)

Lemma row_options_spec row : forall x0 y n,
  In n (row_options row x0 y) <->
  ny n = y /\ (x0 <= nx n)%nat /\ nth_error row (nx n - x0) = Some 0.
Proof.
  induction row as [|v tl IH]; intros x0 y n; simpl.
  - split; [tauto|]. intros (_ & _ & H). destruct (nx n - x0)%nat; discriminate.
  - rewrite in_app_iff, IH. split.
    + intros [H | (Hy & Hx & H)].
      * destruct (Z.eqb_spec v 0) as [->|]; [|destruct H].
        destruct H as [<-|[]]. simpl. rewrite Nat.sub_diag. auto.
      * replace (nx n - x0)%nat with (S (nx n - S x0)) by lia. simpl. split; [auto|split; [lia|auto]].
    + intros (Hy & Hx & H).
      destruct (Nat.eq_dec (nx n) x0) as [E|E].
      * left. rewrite E, Nat.sub_diag in H. simpl in H. injection H as ->. simpl.
        left. destruct n; simpl in *; congruence.
      * right. replace (nx n - x0)%nat with (S (nx n - S x0)) in H by lia. simpl in H.
        split; [auto|split; [lia|auto]].
Qed.

Lemma grid_options_spec g : forall y0 n,
  In n (grid_options g y0) <->
  (y0 <= ny n)%nat /\
  exists row, nth_error g (ny n - y0) = Some row /\ nth_error row (nx n) = Some 0.
Proof.
  induction g as [|row tl IH]; intros y0 n; simpl.
  - split; [tauto|]. intros (_ & r & H & _). destruct (ny n - y0)%nat; discriminate.
  - rewrite in_app_iff, row_options_spec, IH. rewrite Nat.sub_0_r. split.
    + intros [(Hy & _ & H) | (Hy & r & Hr & H)].
      * split; [lia|]. exists row. rewrite Hy, Nat.sub_diag. auto.
      * split; [lia|]. exists r.
        replace (ny n - y0)%nat with (S (ny n - S y0)) by lia. auto.
    + intros (Hy & r & Hr & H).
      destruct (Nat.eq_dec (ny n) y0) as [E|E].
      * left. rewrite E, Nat.sub_diag in Hr. simpl in Hr. injection Hr as ->.
        split; [auto|split; [lia|auto]].
      * right. replace (ny n - y0)%nat with (S (ny n - S y0)) in Hr by lia. simpl in Hr.
        split; [lia|eauto].
Qed.

Lemma options_spec g n :
  In n (options g) <-> get g (nx n) (ny n) = Some 0.
Proof.
  unfold options, get. rewrite grid_options_spec, Nat.sub_0_r. split.
  - intros (_ & row & -> & H). exact H.
  - intros H. apply bind_some in H. split; [lia | exact H].
Qed.

Lemma options_nil g : options g = [] <-> ~ has_zero g.
Proof.
  split.
  - intros E (x & y & H).
    assert (In (mkNode x y) (options g)) by (apply options_spec; exact H).
    rewrite E in *. contradiction.
  - intros H. destruct (options g) as [|n l] eqn:E; [reflexivity|].
    exfalso. apply H. exists (nx n), (ny n). apply options_spec. rewrite E. left; reflexivity.
Qed.

Lemma row_options_sorted row : forall x0 y,
  StronglySorted row_major (row_options row x0 y).
Proof.
  induction row as [|v tl IH]; intros x0 y; simpl; [constructor|].
  destruct (v =? 0); simpl; [|apply IH].
  constructor; [apply IH|].
  apply Forall_forall. intros n Hn. apply row_options_spec in Hn.
  right. simpl. split; [symmetry; tauto | lia].
Qed.

Lemma StronglySorted_app {A} (R : A -> A -> Prop) (l1 l2 : list A) :
  StronglySorted R l1 -> StronglySorted R l2 ->
  (forall a b, In a l1 -> In b l2 -> R a b) ->
  StronglySorted R (l1 ++ l2).
Proof.
  induction l1 as [|a l1 IH]; intros H1 H2 H; simpl; [exact H2|].
  apply StronglySorted_inv in H1. destruct H1 as [H1 Ha].
  constructor.
  - apply IH; auto. intros; apply H; simpl; auto.
  - apply Forall_app. split; [exact Ha|].
    apply Forall_forall. intros b Hb. apply H; simpl; auto.
Qed.

Lemma grid_options_sorted g : forall y0,
  StronglySorted row_major (grid_options g y0).
Proof.
  induction g as [|row tl IH]; intros y0; simpl; [constructor|].
  apply StronglySorted_app; [apply row_options_sorted | apply IH |].
  intros a b Ha Hb. apply row_options_spec in Ha. apply grid_options_spec in Hb.
  left. lia.
Qed.

Lemma Intn_some rnd n :
  n <> 0%nat -> exists i, Intn rnd n = Some i /\ (i < n)%nat /\ i = Nat.modulo rnd n.
Proof.
  intros Hn. unfold Intn. destruct (Nat.eqb_spec n 0); [contradiction|].
  eexists; split; [reflexivity|]. split; [apply Nat.mod_upper_bound; exact Hn | reflexivity].
Qed.

(** [place] on a grid with a free cell. *)
Lemma place_some b rnd :
  has_zero (grid b) ->
  exists n g',
    place b rnd = Some (with_grid b g') /\
    nth_error (options (grid b)) (Nat.modulo rnd (length (options (grid b)))) = Some n /\
    set (grid b) (nx n) (ny n) 2 = Some g'.
Proof.
  intros Hz. unfold place.
  assert (Hne : length (options (grid b)) <> 0%nat).
  { intros E. apply length_zero_iff_nil in E. apply options_nil in E. contradiction. }
  destruct (Intn_some rnd _ Hne) as (i & -> & Hi & ->). cbn [bind].
  destruct (nth_error (options (grid b)) (rnd mod length (options (grid b)))) as [n|] eqn:En;
    [|apply nth_error_None in En; lia].
  cbn [bind coords].
  assert (Hget : get (grid b) (nx n) (ny n) = Some 0)
    by (apply options_spec; eapply nth_error_In; exact En).
  destruct (set_some _ _ _ 2 _ Hget) as (g' & Hset).
  exists n, g'. rewrite Hset. cbn [bind]. auto.
Qed.

Lemma place_none b rnd : ~ has_zero (grid b) -> place b rnd = None.
Proof.
  intros H. apply options_nil in H. unfold place. rewrite H. reflexivity.
Qed.

(** ** A face runs line by line *)

Lemma in_all_lists d l : In l (face_of createBoard d) -> In l all_lists.
Proof.
  unfold all_lists. intros H. rewrite !in_app_iff. destruct d; cbn [face_of] in H; tauto.
Qed.

Ltac frame_step :=
  rewrite tilt_list_frame by (vm_compute; tauto);
  cbn [bind fst snd reads map get nth_error nx ny];
  match goal with
  | |- context [writes _ _ (line [?a; ?b; ?c; ?d])] =>
      let E := fresh "E" in
      destruct (line_shape a b c d) as (? & ? & ? & ? & E);
      rewrite E; cbn [writes set nth_error update bind nx ny]
  end.

Tactic Notation "explicit_face" constr(d) :=
  let f := eval vm_compute in (face_of createBoard d) in
  change (face_of createBoard d) with f.

Tactic Notation "explicit_face" constr(d) "in" hyp(H) :=
  let f := eval vm_compute in (face_of createBoard d) in
  change (face_of createBoard d) with f in H.

Lemma tilt_grid_log_lines g d :
  wf4 g ->
  exists g',
    tilt_grid_log g (face_of createBoard d) =
      Some (g', flat_map (fun l => map (relocate l) (line_log (reads g l)))
                  (face_of createBoard d))
    /\ wf4 g'
    /\ map (reads g') (face_of createBoard d) =
         map (fun l => line (reads g l)) (face_of createBoard d).
Proof.
  intros Hwf.
  destruct (wf4_g4 g Hwf)
    as (c00 & c01 & c02 & c03 & c10 & c11 & c12 & c13 &
        c20 & c21 & c22 & c23 & c30 & c31 & c32 & c33 & ->).
  destruct d;
    [explicit_face Up | explicit_face Down | explicit_face Left | explicit_face Right];
    cbn [tilt_grid_log flat_map];
    do 4 frame_step;
    cbn [bind fst snd reads map get nth_error nx ny app];
    rewrite ?app_nil_r;
    (eexists; split; [reflexivity|]; split; [apply wf4_of_g4|]);
    cbn [bind fst snd reads map get nth_error nx ny app]; congruence.
Qed.

Lemma wrap_small x : int_min <= x <= int_max -> wrap x = x.
Proof.
  unfold int_min, int_max, wrap, int_bits. intros H.
  change (2 ^ (64 - 1)) with 9223372036854775808 in *.
  change (2 ^ 64) with 18446744073709551616.
  rewrite Z.mod_small; lia.
Qed.

(** ** One line *)

Ltac line_cases :=
  unfold line, line_log, tilt_list, tilt_list_log, row0; run_cases.

Ltac eqb_props :=
  repeat match goal with
         | H : (_ =? _) = true |- _ => apply Z.eqb_eq in H
         | H : (_ =? _) = false |- _ => apply Z.eqb_neq in H
         end.

Lemma compacted4 a b c d :
  compacted [a; b; c; d] <->
  (b <> 0 -> a <> 0) /\ (c <> 0 -> a <> 0) /\ (d <> 0 -> a <> 0) /\
  (c <> 0 -> b <> 0) /\ (d <> 0 -> b <> 0) /\ (d <> 0 -> c <> 0).
Proof.
  unfold compacted; split.
  - intros H. repeat split.
    + apply (H 0 1)%nat; simpl; lia.
    + apply (H 0 2)%nat; simpl; lia.
    + apply (H 0 3)%nat; simpl; lia.
    + apply (H 1 2)%nat; simpl; lia.
    + apply (H 1 3)%nat; simpl; lia.
    + apply (H 2 3)%nat; simpl; lia.
  - intros H i j Hij.
    destruct i as [|[|[|[|i]]]]; destruct j as [|[|[|[|j]]]]; simpl in *; try lia; tauto.
Qed.

Lemma no_pair4 a b c d :
  no_pair [a; b; c; d] <->
  (a <> 0 -> a <> b) /\ (b <> 0 -> b <> c) /\ (c <> 0 -> c <> d).
Proof.
  unfold no_pair; split.
  - intros H. repeat split.
    + apply (H 0%nat); simpl; lia.
    + apply (H 1%nat); simpl; lia.
    + apply (H 2%nat); simpl; lia.
  - intros H i Hi.
    destruct i as [|[|[|i]]]; simpl in *; try lia; tauto.
Qed.

Section Line.

Variables a b c d : Z.

Lemma line_compacted : compacted (line [a; b; c; d]).
Proof.
  line_cases; eqb_props; apply compacted4; repeat split; intros; congruence.
Qed.

Lemma line_fixed :
  compacted [a; b; c; d] -> no_pair [a; b; c; d] ->
  line [a; b; c; d] = [a; b; c; d] /\ line_log [a; b; c; d] = [].
Proof.
  rewrite compacted4, no_pair4. intros Hc Hn.
  line_cases; eqb_props; try (split; reflexivity); exfalso; intuition congruence.
Qed.

Lemma line_changed_zero :
  line [a; b; c; d] <> [a; b; c; d] -> In 0 (line [a; b; c; d]).
Proof.
  line_cases; eqb_props; intros H; try congruence; simpl; intuition congruence.
Qed.

Lemma line_sum :
  0 <= a -> 0 <= b -> 0 <= c -> 0 <= d -> a + b + c + d <= int_max ->
  zsum (line [a; b; c; d]) = a + b + c + d.
Proof.
  unfold int_max, int_bits. change (2 ^ (64 - 1)) with 9223372036854775808.
  intros Ha Hb Hc Hd Hs.
  line_cases; eqb_props; unfold zsum, fold_right;
    pose proof wrap_small as W; unfold int_min, int_max, int_bits in W;
    change (2 ^ (64 - 1)) with 9223372036854775808 in W;
    repeat match goal with
         | H : context [wrap ?x] |- _ => rewrite (W x) in H by lia
         | |- context [wrap ?x] => rewrite (W x) by lia
         end; lia.
Qed.

Lemma line_log_roles :
  NoDup (map (fun m => nx (m_src m)) (line_log [a; b; c; d])) /\
  NoDup (map (fun m => nx (m_dst m)) (line_log [a; b; c; d])) /\
  Forall (fun m => (nx (m_src m) < 4)%nat /\ (nx (m_dst m) < 4)%nat)
         (line_log [a; b; c; d]).
Proof.
  line_cases; (split; [|split]);
    repeat (constructor; simpl; try lia; try (intuition discriminate)).
Qed.

End Line.

(** ** From the lines to the grid *)

Lemma face_of_board_of g d : face_of (board_of g) d = face_of createBoard d.
Proof. destruct d; reflexivity. Qed.

Lemma tilt_lines g d :
  wf4 g ->
  exists g',
    tilt (board_of g) (face_of (board_of g) d) = Some (board_of g')
    /\ tilt_grid_log g (face_of createBoard d) =
         Some (g', flat_map (fun l => map (relocate l) (line_log (reads g l)))
                     (face_of createBoard d))
    /\ wf4 g'
    /\ forall l, In l (face_of createBoard d) -> reads g' l = line (reads g l).
Proof.
  intros Hwf. destruct (tilt_grid_log_lines g d Hwf) as (g' & Ht & Hwf' & Hm).
  exists g'. split; [|split; [exact Ht|split; [exact Hwf'|]]].
  - rewrite face_of_board_of. unfold tilt. cbn [grid board_of with_grid].
    rewrite tilt_grid_log_grid, Ht. reflexivity.
  - apply map_ext_in_iff. exact Hm.
Qed.

(** The lists of a face cover the grid: two grids that read alike along
    them are one grid. *)
Lemma reads_face_eq g g' d :
  wf4 g -> wf4 g' ->
  (forall l, In l (face_of createBoard d) -> reads g' l = reads g l) -> g' = g.
Proof.
  intros Hwf Hwf' H.
  destruct (wf4_g4 g Hwf)
    as (c00 & c01 & c02 & c03 & c10 & c11 & c12 & c13 &
        c20 & c21 & c22 & c23 & c30 & c31 & c32 & c33 & ->).
  destruct (wf4_g4 g' Hwf')
    as (e00 & e01 & e02 & e03 & e10 & e11 & e12 & e13 &
        e20 & e21 & e22 & e23 & e30 & e31 & e32 & e33 & ->).
  destruct d;
    [explicit_face Up in H | explicit_face Down in H
     | explicit_face Left in H | explicit_face Right in H];
    pose proof (H _ (or_introl eq_refl)) as H0;
    pose proof (H _ (or_intror (or_introl eq_refl))) as H1;
    pose proof (H _ (or_intror (or_intror (or_introl eq_refl)))) as H2;
    pose proof (H _ (or_intror (or_intror (or_intror (or_introl eq_refl))))) as H3;
    cbn in H0, H1, H2, H3; congruence.
Qed.

Lemma changed_line g g' d :
  wf4 g -> wf4 g' -> g' <> g ->
  exists l, In l (face_of createBoard d) /\ reads g' l <> reads g l.
Proof.
  intros Hwf Hwf' Hne.
  destruct (Exists_dec (fun l => reads g' l <> reads g l) (face_of createBoard d)) as [E|E].
  - intros l. destruct (list_eq_dec Z.eq_dec (reads g' l) (reads g l)); [right|left]; tauto.
  - apply Exists_exists in E. exact E.
  - exfalso. apply Hne. apply (reads_face_eq g g' d Hwf Hwf').
    intros l Hl. destruct (list_eq_dec Z.eq_dec (reads g' l) (reads g l)) as [|N]; [assumption|].
    exfalso. apply E. apply Exists_exists. eauto.
Qed.

Lemma get_wf4 g x y :
  wf4 g -> (x < 4)%nat -> (y < 4)%nat -> exists v, get g x y = Some v.
Proof.
  intros Hwf Hx Hy.
  destruct (wf4_g4 g Hwf)
    as (c00 & c01 & c02 & c03 & c10 & c11 & c12 & c13 &
        c20 & c21 & c22 & c23 & c30 & c31 & c32 & c33 & ->).
  destruct y as [|[|[|[|y]]]]; try lia;
    destruct x as [|[|[|[|x]]]]; try lia; cbn; eauto.
Qed.

Lemma all_lists_range l n :
  In l all_lists -> In n l -> (nx n < 4)%nat /\ (ny n < 4)%nat.
Proof.
  assert (H : Forall (Forall (fun n => (nx n < 4)%nat /\ (ny n < 4)%nat)) all_lists)
    by (vm_compute; repeat constructor).
  intros Hl Hn. rewrite Forall_forall in H. specialize (H l Hl).
  rewrite Forall_forall in H. exact (H n Hn).
Qed.

Lemma reads_zero g l :
  wf4 g -> In l all_lists -> In 0 (reads g l) -> has_zero g.
Proof.
  intros Hwf Hl H. unfold reads in H. apply in_map_iff in H.
  destruct H as (n & Hv & Hn).
  destruct (all_lists_range l n Hl Hn) as [Hx Hy].
  destruct (get_wf4 g _ _ Hwf Hx Hy) as (v & E).
  rewrite E in Hv. subst v. exists (nx n), (ny n). exact E.
Qed.

Lemma reads_line4 g l :
  wf4 g -> In l all_lists -> exists a b c d, reads g l = [a; b; c; d].
Proof.
  intros _ Hl.
  cbv [all_lists createBoard top right bottom left chain map app Nat.sub] in Hl.
  simpl in Hl.
  repeat (destruct Hl as [<- | Hl]; [cbn; repeat eexists|]).
  contradiction.
Qed.

(** A move that changes the grid leaves a free cell. *)
Lemma tilt_changed_zero g g' d :
  wf4 g -> wf4 g' ->
  (forall l, In l (face_of createBoard d) -> reads g' l = line (reads g l)) ->
  g' <> g -> has_zero g'.
Proof.
  intros Hwf Hwf' Hl Hne.
  destruct (changed_line g g' d Hwf Hwf' Hne) as (l & Hin & Hd).
  apply (reads_zero g' l Hwf' (in_all_lists d l Hin)).
  rewrite (Hl l Hin) in *.
  destruct (reads_line4 g l Hwf (in_all_lists d l Hin)) as (a & b & c & e & E).
  rewrite E in *. apply line_changed_zero. exact Hd.
Qed.

(** ** changed and the snapshot *)

Lemma snapshot_wf4 g : wf4 g -> snapshot g = Some g.
Proof.
  intros Hwf.
  destruct (wf4_g4 g Hwf)
    as (c00 & c01 & c02 & c03 & c10 & c11 & c12 & c13 &
        c20 & c21 & c22 & c23 & c30 & c31 & c32 & c33 & ->).
  reflexivity.
Qed.

Lemma changed_spec g g' :
  wf4 g -> wf4 g' ->
  changed (board_of g') g = Some (if grid_eq_dec g' g then false else true).
Proof.
  intros Hwf Hwf'.
  destruct (wf4_g4 g Hwf)
    as (c00 & c01 & c02 & c03 & c10 & c11 & c12 & c13 &
        c20 & c21 & c22 & c23 & c30 & c31 & c32 & c33 & ->).
  destruct (wf4_g4 g' Hwf')
    as (e00 & e01 & e02 & e03 & e10 & e11 & e12 & e13 &
        e20 & e21 & e22 & e23 & e30 & e31 & e32 & e33 & ->).
  unfold changed. cbn [grid board_of with_grid].
  match goal with
  | |- context [grid_eq_dec ?a ?b] => destruct (grid_eq_dec a b) as [E|N]
  end; run_cases; eqb_props; try reflexivity; exfalso; congruence.
Qed.

(** ** Update on a 4x4 board *)

Lemma handle_key_dir b d s :
  In s (keys_of d) ->
  handle_key b s = (b' <- tilt b (face_of b d) ;; Some (Some b')).
Proof.
  destruct d; simpl; intros [<-|[<-|[]]]; reflexivity.
Qed.

Lemma handle_key_cases b s :
  handle_key b s = Some None \/ handle_key b s = Some (Some b) \/
  exists d, handle_key b s = (b' <- tilt b (face_of b d) ;; Some (Some b')).
Proof.
  unfold handle_key.
  destruct (key_in s ["ctrl+c"; "q"]%string); [auto|].
  destruct (key_in s ["left"; "h"]%string); [right; right; exists Left; reflexivity|].
  destruct (key_in s ["up"; "k"]%string); [right; right; exists Up; reflexivity|].
  destruct (key_in s ["right"; "l"]%string); [right; right; exists Right; reflexivity|].
  destruct (key_in s ["down"; "j"]%string); [right; right; exists Down; reflexivity|].
  auto.
Qed.

Lemma Update_tail g g' rnd :
  wf4 g -> wf4 g' ->
  (c <- changed (board_of g') g ;;
   if c then b' <- place (board_of g') rnd ;; Some (mkModel b', NoCmd)
   else Some (mkModel (board_of g'), NoCmd)) = settle g g' rnd.
Proof.
  intros Hwf Hwf'. rewrite (changed_spec g g' Hwf Hwf'). unfold settle.
  destruct (grid_eq_dec g' g); reflexivity.
Qed.

Lemma Update_move g d s rnd :
  wf4 g -> In s (keys_of d) ->
  exists g',
    tilt (board_of g) (face_of (board_of g) d) = Some (board_of g') /\ wf4 g' /\
    (forall l, In l (face_of createBoard d) -> reads g' l = line (reads g l)) /\
    Update (mkModel (board_of g)) (KeyMsg s) rnd = settle g g' rnd.
Proof.
  intros Hwf Hs. destruct (tilt_lines g d Hwf) as (g' & Ht & _ & Hwf' & Hl).
  exists g'. repeat (split; [assumption|]).
  unfold Update. cbn [m_board]. change (grid (board_of g)) with g.
  rewrite (snapshot_wf4 g Hwf). cbn [bind].
  rewrite (handle_key_dir _ d s Hs), Ht. cbn [bind].
  apply Update_tail; assumption.
Qed.

Lemma Update_cases g msg rnd :
  wf4 g ->
  Update (mkModel (board_of g)) msg rnd = Some (mkModel (board_of g), Quit) \/
  Update (mkModel (board_of g)) msg rnd = Some (mkModel (board_of g), NoCmd) \/
  exists d g',
    tilt (board_of g) (face_of (board_of g) d) = Some (board_of g') /\ wf4 g' /\
    (forall l, In l (face_of createBoard d) -> reads g' l = line (reads g l)) /\
    Update (mkModel (board_of g)) msg rnd = settle g g' rnd.
Proof.
  intros Hwf. unfold Update. cbn [m_board]. change (grid (board_of g)) with g.
  rewrite (snapshot_wf4 g Hwf). cbn [bind].
  assert (Hsame : settle g g rnd = Some (mkModel (board_of g), NoCmd)).
  { unfold settle. destruct (grid_eq_dec g g); [reflexivity | congruence]. }
  destruct msg as [s|].
  - destruct (handle_key_cases (board_of g) s) as [-> | [-> | (d & ->)]]; cbn [bind].
    + auto.
    + right; left. rewrite (Update_tail g g rnd Hwf Hwf). exact Hsame.
    + right; right. destruct (tilt_lines g d Hwf) as (g' & Ht & _ & Hwf' & Hl).
      exists d, g'. split; [exact Ht|]. split; [exact Hwf'|]. split; [exact Hl|].
      rewrite Ht. cbn [bind]. apply Update_tail; assumption.
  - right; left. cbn [bind]. rewrite (Update_tail g g rnd Hwf Hwf). exact Hsame.
Qed.

(** ** Moves: compaction, settled boards, room for the new tile *)

Lemma wf4_sample : wf4 sample.
Proof. split; [reflexivity | repeat constructor]. Qed.

Lemma wf4_settled : wf4 settled.
Proof. split; [reflexivity | repeat constructor]. Qed.

Lemma wf4_four_twos : wf4 four_twos.
Proof. split; [reflexivity | repeat constructor]. Qed.

(** C5.  For every 4x4 grid and every direction, [tilt] returns,
    and in the grid it leaves every list of the face reads as tiles first,
    empty cells last: no empty cell lies between the head of a line and a
    tile of that line. *)
Theorem tilt_compacts g d :
  wf4 g ->
  exists g',
    tilt (board_of g) (face_of (board_of g) d) = Some (board_of g') /\
    forall l, In l (face_of (board_of g') d) -> compacted (reads g' l).
Proof.
  intros Hwf. destruct (tilt_lines g d Hwf) as (g' & Ht & _ & Hwf' & Hl).
  exists g'. split; [exact Ht|].
  intros l Hin. rewrite face_of_board_of in Hin. rewrite (Hl l Hin).
  destruct (reads_line4 g l Hwf (in_all_lists d l Hin)) as (a & b & c & e & ->).
  apply line_compacted.
Qed.

Lemma tilt_compacts_witness :
  wf4 sample /\
  exists g',
    tilt (board_of sample) (face_of (board_of sample) Right) = Some (board_of g') /\
    forall l, In l (face_of (board_of g') Right) -> compacted (reads g' l).
Proof.
  split; [exact wf4_sample | apply (tilt_compacts sample Right); exact wf4_sample].
Defined.

(** C7.  Let every line of a direction be compacted already and
    hold no two equal tiles next to each other.  Then [tilt] on that face
    returns the grid it was given, [changed] against the snapshot answers
    false, and [Update] with a key of that direction returns the same board:
    [place] is not called. *)
Theorem settled_move_is_noop g d s rnd :
  wf4 g ->
  (forall l, In l (face_of (board_of g) d) ->
             compacted (reads g l) /\ no_pair (reads g l)) ->
  In s (keys_of d) ->
  tilt (board_of g) (face_of (board_of g) d) = Some (board_of g) /\
  (exists prev, snapshot g = Some prev /\ changed (board_of g) prev = Some false) /\
  Update (mkModel (board_of g)) (KeyMsg s) rnd = Some (mkModel (board_of g), NoCmd).
Proof.
  intros Hwf Hfix Hs.
  destruct (Update_move g d s rnd Hwf Hs) as (g' & Ht & Hwf' & Hl & Hu).
  assert (E : g' = g).
  { apply (reads_face_eq g g' d Hwf Hwf'). intros l Hin.
    rewrite (Hl l Hin).
    destruct (Hfix l) as [Hc Hn]; [rewrite face_of_board_of; exact Hin|].
    destruct (reads_line4 g l Hwf (in_all_lists d l Hin)) as (a & b & c & e & E).
    rewrite E in *. apply line_fixed; assumption. }
  subst g'. split; [exact Ht|]. split.
  - exists g. split; [apply snapshot_wf4; exact Hwf|].
    rewrite (changed_spec g g Hwf Hwf).
    destruct (grid_eq_dec g g); [reflexivity | congruence].
  - rewrite Hu. unfold settle. destruct (grid_eq_dec g g); [reflexivity | congruence].
Qed.

Lemma settled_lines l :
  In l (face_of (board_of settled) Left) ->
  compacted (reads settled l) /\ no_pair (reads settled l).
Proof.
  intros H. simpl in H.
  repeat (destruct H as [<- | H];
          [cbn; rewrite compacted4, no_pair4; lia|]).
  contradiction.
Qed.

Lemma settled_move_is_noop_witness :
  wf4 settled /\
  (forall l, In l (face_of (board_of settled) Left) ->
             compacted (reads settled l) /\ no_pair (reads settled l)) /\
  In "h"%string (keys_of Left) /\
  tilt (board_of settled) (face_of (board_of settled) Left) = Some (board_of settled) /\
  (exists prev, snapshot settled = Some prev /\
                changed (board_of settled) prev = Some false) /\
  Update (mkModel (board_of settled)) (KeyMsg "h"%string) 7 =
    Some (mkModel (board_of settled), NoCmd).
Proof.
  split; [exact wf4_settled|]. split; [exact settled_lines|].
  split; [simpl; auto|].
  apply (settled_move_is_noop settled Left "h"%string 7);
    [exact wf4_settled | exact settled_lines | simpl; auto].
Defined.

Lemma Update_total g msg rnd :
  wf4 g -> Update (mkModel (board_of g)) msg rnd <> None.
Proof.
  intros Hwf.
  destruct (Update_cases g msg rnd Hwf)
    as [-> | [-> | (d2 & g2 & _ & Hwf2 & Hl2 & ->)]]; try discriminate.
  unfold settle. destruct (grid_eq_dec g2 g) as [|Hne]; [discriminate|].
  destruct (place_some (board_of g2) rnd) as (n & g3 & -> & _);
    [apply (tilt_changed_zero g g2 d2); assumption | discriminate].
Qed.

(** C6.  For every 4x4 grid and direction, [tilt] returns a grid
    that, when it differs from the one given, has an empty cell; [place]
    then returns for every draw, and [Update] never panics on a 4x4 board,
    whatever the message and the draw: [Intn] is not reached with 0. *)
Theorem effective_move_leaves_room g d :
  wf4 g ->
  exists g',
    tilt (board_of g) (face_of (board_of g) d) = Some (board_of g') /\
    (g' <> g -> has_zero g') /\
    (forall rnd, g' <> g -> exists b', place (board_of g') rnd = Some b') /\
    (forall msg rnd, Update (mkModel (board_of g)) msg rnd <> None).
Proof.
  intros Hwf. destruct (tilt_lines g d Hwf) as (g' & Ht & _ & Hwf' & Hl).
  exists g'. split; [exact Ht|]. split; [|split].
  - apply (tilt_changed_zero g g' d); assumption.
  - intros rnd Hne.
    destruct (place_some (board_of g') rnd) as (n & g2 & -> & _);
      [apply (tilt_changed_zero g g' d); assumption | eauto].
  - intros msg rnd. apply Update_total. exact Hwf.
Qed.

Lemma effective_move_leaves_room_witness :
  wf4 sample /\
  exists g',
    tilt (board_of sample) (face_of (board_of sample) Up) = Some (board_of g') /\
    (g' <> sample -> has_zero g') /\
    (forall rnd, g' <> sample -> exists b', place (board_of g') rnd = Some b') /\
    (forall msg rnd, Update (mkModel (board_of sample)) msg rnd <> None).
Proof.
  split; [exact wf4_sample | apply (effective_move_leaves_room sample Up); exact wf4_sample].
Defined.

(** ** The row [2; 2; 4; 0] *)

Lemma left_row g y :
  wf4 g -> (y < 4)%nat ->
  exists l, In l (left createBoard) /\ nth_error g y = Some (reads g l).
Proof.
  intros Hwf Hy.
  destruct (wf4_g4 g Hwf)
    as (c00 & c01 & c02 & c03 & c10 & c11 & c12 & c13 &
        c20 & c21 & c22 & c23 & c30 & c31 & c32 & c33 & ->).
  destruct y as [|[|[|[|y]]]]; try lia.
  - exists (nth 0 (left createBoard) []). split; [simpl; tauto | reflexivity].
  - exists (nth 1 (left createBoard) []). split; [simpl; tauto | reflexivity].
  - exists (nth 2 (left createBoard) []). split; [simpl; tauto | reflexivity].
  - exists (nth 3 (left createBoard) []). split; [simpl; tauto | reflexivity].
Qed.

Lemma line_2240 : line [2; 2; 4; 0] = [8; 0; 0; 0].
Proof. reflexivity. Qed.

(** C3, as the code has it.  [tilt] on the left face turns a row holding
    [2; 2; 4; 0] into [8; 0; 0; 0], whatever the other rows hold: the two 2
    merge into a 4 in the second cell, the cursor moves onto that cell and
    the 4 merges with the 4 behind it. *)
Theorem row_2240_left g y :
  wf4 g ->
  nth_error g y = Some [2; 2; 4; 0] ->
  exists g',
    tilt (board_of g) (left (board_of g)) = Some (board_of g') /\
    nth_error g' y = Some [8; 0; 0; 0].
Proof.
  intros Hwf Hrow.
  assert (Hy : (y < 4)%nat).
  { destruct Hwf as [Hlen _]. rewrite <- Hlen. apply nth_error_Some. congruence. }
  destruct (tilt_lines g Left Hwf) as (g' & Ht & _ & Hwf' & Hl).
  exists g'. split; [exact Ht|].
  destruct (left_row g y Hwf Hy) as (l & Hin & E).
  destruct (wf4_g4 g Hwf)
    as (c00 & c01 & c02 & c03 & c10 & c11 & c12 & c13 &
        c20 & c21 & c22 & c23 & c30 & c31 & c32 & c33 & ->).
  destruct (wf4_g4 g' Hwf')
    as (e00 & e01 & e02 & e03 & e10 & e11 & e12 & e13 &
        e20 & e21 & e22 & e23 & e30 & e31 & e32 & e33 & ->).
  clear Ht E Hin l.
  destruct y as [|[|[|[|y]]]]; try lia; cbn in Hrow; injection Hrow as -> -> -> ->.
  - pose proof (Hl (nth 0 (left createBoard) [])) as H; cbn in H;
      rewrite line_2240 in H; cbn; f_equal; apply H; tauto.
  - pose proof (Hl (nth 1 (left createBoard) [])) as H; cbn in H;
      rewrite line_2240 in H; cbn; f_equal; apply H; tauto.
  - pose proof (Hl (nth 2 (left createBoard) [])) as H; cbn in H;
      rewrite line_2240 in H; cbn; f_equal; apply H; tauto.
  - pose proof (Hl (nth 3 (left createBoard) [])) as H; cbn in H;
      rewrite line_2240 in H; cbn; f_equal; apply H; tauto.
Qed.

Lemma row_2240_left_witness :
  wf4 sample /\ nth_error sample 0 = Some [2; 2; 4; 0] /\
  exists g',
    tilt (board_of sample) (left (board_of sample)) = Some (board_of g') /\
    nth_error g' 0 = Some [8; 0; 0; 0].
Proof.
  split; [exact wf4_sample|]. split; [reflexivity|].
  apply (row_2240_left sample 0); [exact wf4_sample | reflexivity].
Defined.

Lemma row_2240_not_4400 :
  tilt_grid [[2; 2; 4; 0]; [0; 0; 0; 0]; [0; 0; 0; 0]; [0; 0; 0; 0]]
            (left createBoard) =
    Some [[8; 0; 0; 0]; [0; 0; 0; 0]; [0; 0; 0; 0]; [0; 0; 0; 0]] /\
  [8; 0; 0; 0] <> [4; 4; 0; 0].
Proof. split; [reflexivity | discriminate]. Qed.

(** ** Four equal tiles *)

Lemma wrap_double_fix v : wrap (v * 2) = v -> v = 0.
Proof.
  unfold wrap, int_bits.
  change (2 ^ (64 - 1)) with 9223372036854775808.
  change (2 ^ 64) with 18446744073709551616.
  intros H. Z.div_mod_to_equations. lia.
Qed.

Lemma line_four_equal v :
  v <> 0 -> wrap (v * 2) <> 0 ->
  line [v; v; v; v] = [wrap (v * 2); wrap (v * 2); 0; 0] /\
  line_log [v; v; v; v] =
    [mkMerge (mkNode 0 0) (mkNode 1 0) v; mkMerge (mkNode 2 0) (mkNode 3 0) v].
Proof.
  intros Hv Hw.
  line_cases; eqb_props; try (split; reflexivity); exfalso;
    try match goal with
        | H : wrap (v * 2) = v |- _ => apply wrap_double_fix in H
        end; congruence.
Qed.

Lemma pow2_range e : 1 <= e <= 62 -> 2 <= 2 ^ e <= 2 ^ 62.
Proof.
  intros H. split.
  - change 2 with (2 ^ 1) at 1. apply Z.pow_le_mono_r; lia.
  - apply Z.pow_le_mono_r; lia.
Qed.

Lemma wrap_double_pow2 e :
  1 <= e <= 62 ->
  wrap (2 ^ e * 2) <> 0 /\ (e <= 61 -> wrap (2 ^ e * 2) = 2 ^ (e + 1)).
Proof.
  intros He. split.
  - destruct (Z.eq_dec e 62) as [->|Hne]; [vm_compute; discriminate|].
    assert (H := pow2_range e He).
    assert (H' : 2 ^ e <= 2 ^ 61) by (apply Z.pow_le_mono_r; lia).
    rewrite wrap_small; [lia|].
    unfold int_min, int_max, int_bits.
    change (2 ^ (64 - 1)) with (2 * 2 ^ 61 * 2). lia.
  - intros H61.
    assert (H := pow2_range e He).
    assert (H' : 2 ^ e <= 2 ^ 61) by (apply Z.pow_le_mono_r; lia).
    rewrite wrap_small.
    + rewrite Z.pow_add_r by lia. reflexivity.
    + unfold int_min, int_max, int_bits.
      change (2 ^ (64 - 1)) with (2 * 2 ^ 61 * 2). lia.
Qed.

(** C2, as the code has it.  Let [v = 2 ^ e] with [1 <= e <= 62], the
    powers of two from 2 on that a 64-bit [int] holds.  A line of four [v],
    in any direction, ends as [2v; 2v; 0; 0] with the doubling taken in [int]:
    the first cell merges into the second and the third into the fourth,
    and exactly two tiles remain.  For [e <= 61] nothing wraps. *)
Theorem four_equal_merge_twice g d l e :
  wf4 g -> 1 <= e <= 62 ->
  In l (face_of (board_of g) d) ->
  reads g l = [2 ^ e; 2 ^ e; 2 ^ e; 2 ^ e] ->
  exists g' lg,
    tilt (board_of g) (face_of (board_of g) d) = Some (board_of g') /\
    tilt_grid_log g (face_of (board_of g) d) = Some (g', lg) /\
    reads g' l = [wrap (2 ^ e * 2); wrap (2 ^ e * 2); 0; 0] /\
    tiles (reads g' l) = 2%nat /\
    (e <= 61 -> reads g' l = [2 ^ (e + 1); 2 ^ (e + 1); 0; 0]) /\
    incl [mkMerge (nth 0 l (mkNode 0 0)) (nth 1 l (mkNode 0 0)) (2 ^ e);
          mkMerge (nth 2 l (mkNode 0 0)) (nth 3 l (mkNode 0 0)) (2 ^ e)] lg.
Proof.
  intros Hwf He Hin Hr. rewrite face_of_board_of in *.
  destruct (tilt_lines g d Hwf) as (g' & Ht & Hlog & Hwf' & Hl).
  rewrite face_of_board_of in Ht.
  exists g'; eexists. split; [exact Ht|]. split; [exact Hlog|].
  destruct (wrap_double_pow2 e He) as [Hw Hs].
  assert (Hv : 2 ^ e <> 0) by (pose proof (pow2_range e He); lia).
  destruct (line_four_equal (2 ^ e) Hv Hw) as [E Elog].
  rewrite (Hl l Hin), Hr, E.
  split; [reflexivity|]. split; [|split].
  - unfold tiles. cbn [filter]. rewrite Z.eqb_refl.
    destruct (Z.eqb_spec (wrap (2 ^ e * 2)) 0); [contradiction | reflexivity].
  - intros H61. rewrite (Hs H61). reflexivity.
  - intros m Hm. apply in_flat_map. exists l. split; [exact Hin|].
    rewrite Hr, Elog.
    assert (Hlen : length l = 4%nat).
    { assert (H : Forall (fun l => length l = 4%nat) all_lists)
        by (vm_compute; repeat constructor).
      rewrite Forall_forall in H. apply H. apply (in_all_lists d). exact Hin. }
    destruct l as [|n0 [|n1 [|n2 [|n3 [|? ?]]]]]; try discriminate Hlen.
    exact Hm.
Qed.

Lemma four_equal_merge_twice_witness :
  wf4 four_twos /\ 1 <= 1 <= 62 /\
  In row0 (face_of (board_of four_twos) Left) /\
  reads four_twos row0 = [2 ^ 1; 2 ^ 1; 2 ^ 1; 2 ^ 1] /\
  exists g' lg,
    tilt (board_of four_twos) (face_of (board_of four_twos) Left) = Some (board_of g') /\
    tilt_grid_log four_twos (face_of (board_of four_twos) Left) = Some (g', lg) /\
    reads g' row0 = [wrap (2 ^ 1 * 2); wrap (2 ^ 1 * 2); 0; 0] /\
    tiles (reads g' row0) = 2%nat /\
    (1 <= 61 -> reads g' row0 = [2 ^ (1 + 1); 2 ^ (1 + 1); 0; 0]) /\
    incl [mkMerge (nth 0 row0 (mkNode 0 0)) (nth 1 row0 (mkNode 0 0)) (2 ^ 1);
          mkMerge (nth 2 row0 (mkNode 0 0)) (nth 3 row0 (mkNode 0 0)) (2 ^ 1)] lg.
Proof.
  split; [exact wf4_four_twos|]. split; [lia|].
  split; [simpl; tauto|]. split; [reflexivity|].
  apply (four_equal_merge_twice four_twos Left row0 1);
    [exact wf4_four_twos | lia | simpl; tauto | reflexivity].
Defined.

Lemma four_equal_counterexample :
  tilt_grid four_twos (left createBoard) =
    Some [[4; 4; 0; 0]; [0; 0; 0; 0]; [0; 0; 0; 0]; [0; 0; 0; 0]] /\
  tiles [4; 4; 0; 0] <> 3%nat.
Proof. split; [reflexivity | discriminate]. Qed.

(** ** Roles of a cell in the merges of one call *)

Lemma node_eqb_eq n m : node_eqb n m = true <-> n = m.
Proof.
  unfold node_eqb. rewrite andb_true_iff, !Nat.eqb_eq.
  destruct n, m; simpl; split; [intros [-> ->]; reflexivity | intros H; injection H; auto].
Qed.

Lemma filter_absent {A} (f : A -> node) (lg : list A) n :
  ~ In n (map f lg) -> filter (fun m => node_eqb (f m) n) lg = [].
Proof.
  induction lg as [|m lg IH]; simpl; intros H; [reflexivity|].
  destruct (node_eqb (f m) n) eqn:E.
  - apply node_eqb_eq in E. tauto.
  - apply IH. tauto.
Qed.

Lemma NoDup_filter_once {A} (f : A -> node) (lg : list A) n :
  NoDup (map f lg) ->
  (length (filter (fun m => node_eqb (f m) n) lg) <= 1)%nat.
Proof.
  induction lg as [|m lg IH]; simpl; intros H; [lia|].
  apply NoDup_cons_iff in H. destruct H as [Hm H].
  destruct (node_eqb (f m) n) eqn:E; [|apply IH; exact H].
  apply node_eqb_eq in E. subst n.
  rewrite (filter_absent f lg (f m) Hm). simpl. lia.
Qed.

Lemma filter_orb_length {A} (p q : A -> bool) (l : list A) :
  (length (filter (fun a => p a || q a) l)
   <= length (filter p l) + length (filter q l))%nat.
Proof.
  induction l as [|a l IH]; simpl; [lia|].
  destruct (p a), (q a); simpl; lia.
Qed.

Lemma NoDup_app_disjoint {A} (l1 l2 : list A) a :
  NoDup (l1 ++ l2) -> In a l1 -> In a l2 -> False.
Proof.
  induction l1 as [|b l1 IH]; simpl; intros H H1 H2; [contradiction|].
  apply NoDup_cons_iff in H. destruct H as [Hb H].
  destruct H1 as [->|H1].
  - apply Hb. apply in_or_app. auto.
  - exact (IH H H1 H2).
Qed.

(** Lists with no node in common stay so under a map into themselves. *)
Lemma NoDup_flat_map_sub (f : list (list node)) (G : list node -> list node) :
  NoDup (concat f) ->
  (forall l, In l f -> NoDup (G l) /\ incl (G l) l) ->
  NoDup (flat_map G f).
Proof.
  induction f as [|l f IH]; simpl; intros Hnd HG; [constructor|].
  destruct (HG l (or_introl eq_refl)) as [Hl Hi].
  apply NoDup_app.
  - exact Hl.
  - apply IH; [eapply NoDup_app_remove_l; exact Hnd | intros; apply HG; auto].
  - intros a Ha Hf. apply in_flat_map in Hf. destruct Hf as (l' & Hl' & Ha').
    apply (NoDup_app_disjoint l (concat f) a Hnd (Hi a Ha)).
    apply in_concat. exists l'. split; [exact Hl'|].
    destruct (HG l' (or_intror Hl')) as [_ Hi']. exact (Hi' a Ha').
Qed.

Lemma map_flat_map {A B C} (h : B -> C) (F : A -> list B) (l : list A) :
  map h (flat_map F l) = flat_map (fun a => map h (F a)) l.
Proof.
  induction l as [|a l IH]; simpl; [reflexivity|].
  rewrite map_app, IH. reflexivity.
Qed.

Lemma NoDup_map_nth (l : list node) (idx : list nat) d :
  NoDup l -> NoDup idx -> Forall (fun i => (i < length l)%nat) idx ->
  NoDup (map (fun i => nth i l d) idx) /\ incl (map (fun i => nth i l d) idx) l.
Proof.
  intros Hl Hidx Hlt. split.
  - induction Hidx as [|i idx Hi Hidx IH]; simpl; constructor.
    + intros H. apply in_map_iff in H. destruct H as (j & E & Hj).
      apply Forall_cons_iff in Hlt. destruct Hlt as [Hil Hlt].
      rewrite Forall_forall in Hlt.
      apply (proj1 (NoDup_nth l d) Hl) in E; [subst; contradiction | auto | exact Hil].
    + apply IH. apply Forall_cons_iff in Hlt. tauto.
  - intros n H. apply in_map_iff in H. destruct H as (i & <- & Hi).
    rewrite Forall_forall in Hlt. apply nth_In. auto.
Qed.

Ltac nodup_nodes :=
  repeat (apply NoDup_cons; [simpl; intuition discriminate|]); apply NoDup_nil.

Lemma faces_NoDup d :
  NoDup (concat (face_of createBoard d)) /\
  Forall (fun l => NoDup l /\ length l = 4%nat) (face_of createBoard d).
Proof.
  destruct d; split; vm_compute;
    try nodup_nodes;
    repeat (apply Forall_cons; [split; [nodup_nodes | reflexivity]|]);
    apply Forall_nil.
Qed.

Lemma relocated_roles g d (role : merge -> node) :
  (role = m_src \/ role = m_dst) ->
  wf4 g ->
  NoDup (map role
           (flat_map (fun l => map (relocate l) (line_log (reads g l)))
                     (face_of createBoard d))).
Proof.
  intros Hrole Hwf. rewrite map_flat_map.
  destruct (faces_NoDup d) as [Hnd Hls].
  apply NoDup_flat_map_sub; [exact Hnd|].
  intros l Hin. rewrite Forall_forall in Hls. destruct (Hls l Hin) as [Hl Hlen].
  destruct (reads_line4 g l Hwf (in_all_lists d l Hin)) as (a & b & c & e & ->).
  destruct (line_log_roles a b c e) as (Hs & Hd & Hr).
  rewrite map_map.
  destruct Hrole as [-> | ->]; cbn [relocate m_src m_dst].
  - rewrite (map_ext_in _ (fun m => nth (nx (m_src m)) l (mkNode 0 0)))
      by (intros m Hm; apply nth_indep; rewrite Forall_forall in Hr;
          destruct (Hr m Hm); lia).
    rewrite <- (map_map (fun m => nx (m_src m)) (fun i => nth i l (mkNode 0 0))).
    apply NoDup_map_nth; [exact Hl | exact Hs|].
    apply Forall_forall. intros i Hi. apply in_map_iff in Hi.
    destruct Hi as (m & <- & Hm). rewrite Forall_forall in Hr.
    destruct (Hr m Hm). lia.
  - rewrite (map_ext_in _ (fun m => nth (nx (m_dst m)) l (mkNode 0 0)))
      by (intros m Hm; apply nth_indep; rewrite Forall_forall in Hr;
          destruct (Hr m Hm); lia).
    rewrite <- (map_map (fun m => nx (m_dst m)) (fun i => nth i l (mkNode 0 0))).
    apply NoDup_map_nth; [exact Hl | exact Hd|].
    apply Forall_forall. intros i Hi. apply in_map_iff in Hi.
    destruct Hi as (m & <- & Hm). rewrite Forall_forall in Hr.
    destruct (Hr m Hm). lia.
Qed.

(** C1, as the code has it.  For every 4x4 grid and every direction,
    within one [tilt] no cell is emptied by two merges and no cell is doubled
    by two merges; a cell takes part in at most two merges, one in each
    role. *)
Theorem merge_roles_once g d :
  wf4 g ->
  exists g' lg,
    tilt (board_of g) (face_of (board_of g) d) = Some (board_of g') /\
    tilt_grid_log g (face_of (board_of g) d) = Some (g', lg) /\
    forall n, (zeroed_times lg n <= 1)%nat /\ (doubled_times lg n <= 1)%nat /\
              (merges_of lg n <= 2)%nat.
Proof.
  intros Hwf. destruct (tilt_lines g d Hwf) as (g' & Ht & Hlog & _ & _).
  exists g'; eexists. split; [exact Ht|].
  split; [rewrite face_of_board_of; exact Hlog|].
  intros n.
  assert (Hz := NoDup_filter_once m_src _ n (relocated_roles g d m_src (or_introl eq_refl) Hwf)).
  assert (Hd := NoDup_filter_once m_dst _ n (relocated_roles g d m_dst (or_intror eq_refl) Hwf)).
  unfold zeroed_times, doubled_times, merges_of.
  split; [exact Hz|]. split; [exact Hd|].
  etransitivity; [apply filter_orb_length|]. lia.
Qed.

Lemma merge_roles_once_witness :
  wf4 sample /\
  exists g' lg,
    tilt (board_of sample) (face_of (board_of sample) Left) = Some (board_of g') /\
    tilt_grid_log sample (face_of (board_of sample) Left) = Some (g', lg) /\
    forall n, (zeroed_times lg n <= 1)%nat /\ (doubled_times lg n <= 1)%nat /\
              (merges_of lg n <= 2)%nat.
Proof.
  split; [exact wf4_sample | apply (merge_roles_once sample Left); exact wf4_sample].
Defined.

Lemma merge_twice_counterexample :
  tilt_grid_log [[2; 2; 4; 0]; [0; 0; 0; 0]; [0; 0; 0; 0]; [0; 0; 0; 0]]
                (left createBoard) =
    Some ([[8; 0; 0; 0]; [0; 0; 0; 0]; [0; 0; 0; 0]; [0; 0; 0; 0]],
          [mkMerge (mkNode 0 0) (mkNode 1 0) 2; mkMerge (mkNode 1 0) (mkNode 2 0) 4]) /\
  merges_of [mkMerge (mkNode 0 0) (mkNode 1 0) 2; mkMerge (mkNode 1 0) (mkNode 2 0) 4]
            (mkNode 1 0) = 2%nat.
Proof. split; reflexivity. Qed.

(** ** The sum of the cells *)

Ltac line_sum_of H :=
  match type of H with
  | _ = line [?a; ?b; ?c; ?d] =>
      let S := fresh "S" in
      assert (S := line_sum a b c d); rewrite <- H in S;
      cbn [zsum fold_right] in S
  end.

(** C4, as the code has it.  For every 4x4 grid of non-negative cells whose
    sum is an [int], and every direction, the sum of the cells after [tilt]
    is the sum before it, whatever the number of merges: a merge turns
    [v, v] into [0, 2v] and the second loop only exchanges cells. *)
Theorem tilt_keeps_sum g d :
  wf4 g ->
  Forall (Forall (fun v => 0 <= v)) g ->
  grid_sum g <= int_max ->
  exists g' lg,
    tilt (board_of g) (face_of (board_of g) d) = Some (board_of g') /\
    tilt_grid_log g (face_of (board_of g) d) = Some (g', lg) /\
    grid_sum g' = grid_sum g.
Proof.
  intros Hwf Hpos Hmax. destruct (tilt_lines g d Hwf) as (g' & Ht & Hlog & Hwf' & Hl).
  exists g'; eexists. split; [exact Ht|].
  split; [rewrite face_of_board_of; exact Hlog|].
  clear Ht Hlog.
  destruct (wf4_g4 g Hwf)
    as (c00 & c01 & c02 & c03 & c10 & c11 & c12 & c13 &
        c20 & c21 & c22 & c23 & c30 & c31 & c32 & c33 & ->).
  destruct (wf4_g4 g' Hwf')
    as (e00 & e01 & e02 & e03 & e10 & e11 & e12 & e13 &
        e20 & e21 & e22 & e23 & e30 & e31 & e32 & e33 & ->).
  repeat (apply Forall_cons_iff in Hpos; destruct Hpos as [? Hpos]).
  repeat match goal with
         | H : Forall _ (_ :: _) |- _ =>
             apply Forall_cons_iff in H; destruct H as [? H]
         end.
  cbv beta in *. unfold grid_sum in *. cbn [map zsum fold_right] in *.
  destruct d;
    [explicit_face Up in Hl | explicit_face Down in Hl
     | explicit_face Left in Hl | explicit_face Right in Hl];
    pose proof (Hl _ (or_introl eq_refl)) as L0;
    pose proof (Hl _ (or_intror (or_introl eq_refl))) as L1;
    pose proof (Hl _ (or_intror (or_intror (or_introl eq_refl)))) as L2;
    pose proof (Hl _ (or_intror (or_intror (or_intror (or_introl eq_refl))))) as L3;
    cbn in L0, L1, L2, L3;
    line_sum_of L0; line_sum_of L1; line_sum_of L2; line_sum_of L3; lia.
Qed.

Lemma tilt_keeps_sum_witness :
  wf4 sample /\ Forall (Forall (fun v => 0 <= v)) sample /\ grid_sum sample <= int_max /\
  exists g' lg,
    tilt (board_of sample) (face_of (board_of sample) Down) = Some (board_of g') /\
    tilt_grid_log sample (face_of (board_of sample) Down) = Some (g', lg) /\
    grid_sum g' = grid_sum sample.
Proof.
  assert (Hpos : Forall (Forall (fun v => 0 <= v)) sample)
    by (repeat constructor; lia).
  assert (Hmax : grid_sum sample <= int_max) by (vm_compute; discriminate).
  split; [exact wf4_sample|]. split; [exact Hpos|]. split; [exact Hmax|].
  apply (tilt_keeps_sum sample Down); [exact wf4_sample | exact Hpos | exact Hmax].
Defined.

Lemma merge_gain_counterexample :
  tilt_grid_log two_twos (left createBoard) =
    Some ([[4; 0; 0; 0]; [0; 0; 0; 0]; [0; 0; 0; 0]; [0; 0; 0; 0]],
          [mkMerge (mkNode 0 0) (mkNode 1 0) 2]) /\
  grid_sum [[4; 0; 0; 0]; [0; 0; 0; 0]; [0; 0; 0; 0]; [0; 0; 0; 0]] = grid_sum two_twos /\
  merge_gain [mkMerge (mkNode 0 0) (mkNode 1 0) 2] = 2 /\
  grid_sum [[4; 0; 0; 0]; [0; 0; 0; 0]; [0; 0; 0; 0]; [0; 0; 0; 0]] <>
    grid_sum two_twos + merge_gain [mkMerge (mkNode 0 0) (mkNode 1 0) 2] /\
  grid_sum [[4; 0; 0; 0]; [0; 0; 0; 0]; [0; 0; 0; 0]; [0; 0; 0; 0]] <>
    grid_sum two_twos + 2 * merge_gain [mkMerge (mkNode 0 0) (mkNode 1 0) 2].
Proof. repeat split; vm_compute; discriminate. Qed.

(** ** The new tile *)

(** C9.  On a grid with an empty cell [place] returns; the cell
    it picks is the entry of [options] at the draw reduced modulo their
    number, it held 0 and holds 2 afterwards, and every other cell reads as
    before.  [options] lists exactly the empty cells, in row-major order. *)
Theorem place_sets_one_free_cell b rnd :
  has_zero (grid b) ->
  exists n b',
    place b rnd = Some b' /\
    nth_error (options (grid b)) (Nat.modulo rnd (length (options (grid b)))) = Some n /\
    get (grid b) (nx n) (ny n) = Some 0 /\
    get (grid b') (nx n) (ny n) = Some 2 /\
    (forall x y, (x, y) <> (nx n, ny n) -> get (grid b') x y = get (grid b) x y) /\
    (forall m, In m (options (grid b)) <-> get (grid b) (nx m) (ny m) = Some 0) /\
    StronglySorted row_major (options (grid b)).
Proof.
  intros Hz. destruct (place_some b rnd Hz) as (n & g' & Hp & Hn & Hset).
  exists n, (with_grid b g'). split; [exact Hp|]. split; [exact Hn|].
  destruct (set_spec _ _ _ _ _ Hset) as (_ & Hsame & Hother & _).
  split; [apply options_spec; eapply nth_error_In; exact Hn|].
  split; [exact Hsame|]. split; [exact Hother|].
  split; [intros m; apply options_spec | apply grid_options_sorted].
Qed.

Lemma has_zero_sample : has_zero sample.
Proof. exists 3%nat, 0%nat. reflexivity. Qed.

Lemma place_sets_one_free_cell_witness :
  has_zero (grid (board_of sample)) /\
  exists n b',
    place (board_of sample) 9 = Some b' /\
    nth_error (options (grid (board_of sample)))
              (Nat.modulo 9 (length (options (grid (board_of sample))))) = Some n /\
    get (grid (board_of sample)) (nx n) (ny n) = Some 0 /\
    get (grid b') (nx n) (ny n) = Some 2 /\
    (forall x y, (x, y) <> (nx n, ny n) ->
                 get (grid b') x y = get (grid (board_of sample)) x y) /\
    (forall m, In m (options (grid (board_of sample))) <->
               get (grid (board_of sample)) (nx m) (ny m) = Some 0) /\
    StronglySorted row_major (options (grid (board_of sample))).
Proof.
  split; [exact has_zero_sample|].
  apply (place_sets_one_free_cell (board_of sample) 9). exact has_zero_sample.
Defined.

(** C10.  [place] panics exactly when the grid has no empty cell, it
    returns exactly when the grid has one, and the grid has none exactly
    when [Intn] is called with 0. *)
Theorem place_panics_iff_full b rnd :
  (place b rnd = None <-> ~ has_zero (grid b)) /\
  ((exists b', place b rnd = Some b') <-> has_zero (grid b)) /\
  (~ has_zero (grid b) <-> Intn rnd (length (options (grid b))) = None).
Proof.
  split; [split|split; split].
  - intros Hnone Hz. destruct (place_some b rnd Hz) as (n & g' & Hp & _). congruence.
  - apply place_none.
  - intros (b' & Hp). destruct (options (grid b)) as [|n opts] eqn:E.
    + unfold place in Hp. rewrite E in Hp. discriminate.
    + exists (nx n), (ny n). apply options_spec. rewrite E. left; reflexivity.
  - intros Hz. destruct (place_some b rnd Hz) as (n & g' & Hp & _). eauto.
  - intros H. apply options_nil in H. rewrite H. reflexivity.
  - intros H. apply options_nil. apply length_zero_iff_nil.
    unfold Intn in H. destruct (Nat.eqb_spec (length (options (grid b))) 0);
      [assumption | discriminate].
Qed.

Lemma place_panics_iff_full_witness :
  (place (board_of full_grid) 3 = None <-> ~ has_zero (grid (board_of full_grid))) /\
  ((exists b', place (board_of full_grid) 3 = Some b') <->
   has_zero (grid (board_of full_grid))) /\
  (~ has_zero (grid (board_of full_grid)) <->
   Intn 3 (length (options (grid (board_of full_grid)))) = None).
Proof. exact (place_panics_iff_full (board_of full_grid) 3). Defined.

(** ** Sixteen cells bound the tiles *)

Lemma ind_range k v : 0 <= ind k v <= 1.
Proof. unfold ind. destruct (k <=? Z.log2 v); lia. Qed.

Lemma ind_zero k : 1 <= k -> ind k 0 = 0.
Proof. intros H. unfold ind. change (Z.log2 0) with 0. destruct (Z.leb_spec k 0); lia. Qed.

Lemma ind_pow2 k e : 0 <= e -> ind k (2 ^ e) = if k <=? e then 1 else 0.
Proof. intros H. unfold ind. rewrite Z.log2_pow2 by exact H. reflexivity. Qed.

Lemma ind_mono j k v : j <= k -> ind k v <= ind j v.
Proof.
  intros H. unfold ind.
  destruct (Z.leb_spec k (Z.log2 v)), (Z.leb_spec j (Z.log2 v)); lia.
Qed.

Lemma zsum_app l1 l2 : zsum (l1 ++ l2) = zsum l1 + zsum l2.
Proof. induction l1 as [|a l1 IH]; simpl; [reflexivity | rewrite IH; lia]. Qed.

Lemma rank_count_mid k l1 x l2 :
  rank_count k (l1 ++ x :: l2) = rank_count k l1 + ind k x + rank_count k l2.
Proof. unfold rank_count. rewrite map_app, zsum_app. simpl. lia. Qed.

Lemma rank_count_range k l : 0 <= rank_count k l <= Z.of_nat (length l).
Proof.
  unfold rank_count. induction l as [|a l IH]; simpl; [lia|].
  pose proof (ind_range k a). lia.
Qed.

Lemma rank_count_mono j k l : j <= k -> rank_count k l <= rank_count j l.
Proof.
  intros H. unfold rank_count. induction l as [|a l IH]; simpl; [lia|].
  pose proof (ind_mono j k a H). lia.
Qed.

Lemma Forall_mid {A} (P : A -> Prop) l1 x l2 :
  Forall P (l1 ++ x :: l2) <-> Forall P l1 /\ P x /\ Forall P l2.
Proof. rewrite Forall_app, Forall_cons_iff. reflexivity. Qed.

Lemma wrap_double_tile e : 1 <= e <= 15 -> wrap (2 ^ e * 2) = 2 ^ (e + 1).
Proof. intros H. apply wrap_double_pow2; lia. Qed.

(** One cell emptied. *)
Lemma bounded_cells_clear l1 v l2 :
  bounded_cells (l1 ++ v :: l2) -> bounded_cells (l1 ++ 0 :: l2).
Proof.
  intros [Ht Hc]. split.
  - apply Forall_mid in Ht. apply Forall_mid. repeat split; try tauto. left; reflexivity.
  - intros k Hk. specialize (Hc k Hk). rewrite rank_count_mid in *.
    rewrite (ind_zero k (proj1 Hk)). pose proof (ind_range k v). lia.
Qed.

(** Two equal tiles replaced by an empty cell and their double. *)
Lemma bounded_cells_merge l1 l2 l3 l4 v :
  bounded_cells (l1 ++ v :: l2) ->
  l1 ++ 0 :: l2 = l3 ++ v :: l4 ->
  bounded_cells (l3 ++ wrap (v * 2) :: l4).
Proof.
  intros H E. assert (H1 := bounded_cells_clear _ _ _ H). rewrite E in H1.
  destruct H as [Ht Hc]. destruct H1 as [Ht1 Hc1].
  assert (Hv : tile16 v) by (apply Forall_mid in Ht; tauto).
  destruct Hv as [-> | (e & He & ->)]; [split; assumption|].
  assert (Hrel : forall k, 1 <= k <= 16 ->
            rank_count k (l1 ++ 2 ^ e :: l2)
            = rank_count k l3 + rank_count k l4 + 2 * ind k (2 ^ e)).
  { intros k Hk. rewrite rank_count_mid.
    assert (E' := f_equal (rank_count k) E). rewrite !rank_count_mid in E'.
    rewrite (ind_zero k (proj1 Hk)) in E'. lia. }
  assert (He15 : e <= 15).
  { specialize (Hc e He). rewrite (Hrel e He) in Hc.
    rewrite ind_pow2 in Hc by lia. rewrite Z.leb_refl in Hc.
    pose proof (rank_count_range e l3). pose proof (rank_count_range e l4). lia. }
  rewrite wrap_double_tile by lia. split.
  - apply Forall_mid in Ht1. apply Forall_mid. repeat split; try tauto.
    right. exists (e + 1). split; [lia | reflexivity].
  - intros k Hk. rewrite rank_count_mid. rewrite ind_pow2 by lia.
    destruct (Z.leb_spec k (e + 1)) as [Hle|Hgt].
    + destruct (Z.eq_dec k (e + 1)) as [->|Hne].
      * specialize (Hc e He). rewrite (Hrel e He) in Hc.
        rewrite ind_pow2 in Hc by lia. rewrite Z.leb_refl in Hc.
        pose proof (rank_count_mono e (e + 1) l3). pose proof (rank_count_mono e (e + 1) l4).
        lia.
      * specialize (Hc k Hk). rewrite (Hrel k Hk) in Hc.
        rewrite ind_pow2 in Hc by lia.
        destruct (Z.leb_spec k e); lia.
    + specialize (Hc k Hk). rewrite (Hrel k Hk) in Hc.
      pose proof (ind_range k (2 ^ e)). lia.
Qed.

(** Two cells exchanged. *)
Lemma bounded_cells_swap l1 l2 l3 l4 va vb :
  bounded_cells (l1 ++ va :: l2) ->
  In vb (l1 ++ va :: l2) ->
  l1 ++ vb :: l2 = l3 ++ vb :: l4 ->
  bounded_cells (l3 ++ va :: l4).
Proof.
  intros [Ht Hc] Hin E.
  assert (Hvb : tile16 vb) by (rewrite Forall_forall in Ht; auto).
  assert (Ht' : Forall tile16 (l1 ++ vb :: l2))
    by (apply Forall_mid in Ht; apply Forall_mid; tauto).
  rewrite E in Ht'. split.
  - apply Forall_mid in Ht'. apply Forall_mid in Ht. apply Forall_mid. tauto.
  - intros k Hk. specialize (Hc k Hk).
    assert (E' := f_equal (rank_count k) E). rewrite !rank_count_mid in *. lia.
Qed.

(** A 2 put on an empty cell, with sixteen cells in all. *)
Lemma bounded_cells_spawn l1 l2 :
  length (l1 ++ 0 :: l2) = 16%nat ->
  bounded_cells (l1 ++ 0 :: l2) -> bounded_cells (l1 ++ 2 :: l2).
Proof.
  intros Hlen [Ht Hc]. split.
  - apply Forall_mid in Ht. apply Forall_mid. repeat split; try tauto.
    right. exists 1. split; [lia | reflexivity].
  - intros k Hk. specialize (Hc k Hk). rewrite rank_count_mid in *.
    rewrite (ind_zero k (proj1 Hk)) in Hc. change 2 with (2 ^ 1) at 1. rewrite ind_pow2 by lia.
    destruct (Z.leb_spec k 1); [|lia].
    rewrite length_app in Hlen. simpl in Hlen.
    pose proof (rank_count_range k l1). pose proof (rank_count_range k l2). lia.
Qed.

(** ** The bound along the code *)

Lemma set_concat g x y v g' :
  set g x y v = Some g' ->
  exists l1 old l2,
    get g x y = Some old /\ concat g = l1 ++ old :: l2 /\ concat g' = l1 ++ v :: l2.
Proof.
  unfold set, get. intros H.
  apply bind_some in H. destruct H as (row & Hrow & H).
  apply bind_some in H. destruct H as (row' & Hrow' & H).
  apply update_split in Hrow'. destruct Hrow' as (r1 & old & r2 & -> & -> & <-).
  apply update_split in H. destruct H as (g1 & orow & g2 & -> & -> & <-).
  rewrite nth_error_mid in Hrow. injection Hrow as ->.
  exists (concat g1 ++ r1), old, (r2 ++ concat g2).
  rewrite nth_error_mid. cbn [bind]. rewrite nth_error_mid.
  rewrite !concat_app. cbn [concat]. rewrite <- !app_assoc. cbn [app].
  repeat split; reflexivity.
Qed.

Lemma wf4_lengths g : wf4 g <-> map (@length Z) g = [4; 4; 4; 4]%nat.
Proof.
  split.
  - intros H. destruct (wf4_g4 g H)
      as (c00 & c01 & c02 & c03 & c10 & c11 & c12 & c13 &
          c20 & c21 & c22 & c23 & c30 & c31 & c32 & c33 & ->). reflexivity.
  - intros H. split.
    + rewrite <- (length_map (@length Z)), H. reflexivity.
    + apply Forall_forall. intros row Hin.
      apply (in_map (@length Z)) in Hin. rewrite H in Hin.
      simpl in Hin. intuition congruence.
Qed.

Lemma set_wf4 g x y v g' : set g x y v = Some g' -> wf4 g -> wf4 g'.
Proof.
  intros H Hwf. apply wf4_lengths. apply wf4_lengths in Hwf.
  destruct (set_spec _ _ _ _ _ H) as (_ & _ & _ & E). congruence.
Qed.

Lemma wf4_cells g : wf4 g -> length (concat g) = 16%nat.
Proof.
  intros H. destruct (wf4_g4 g H)
    as (c00 & c01 & c02 & c03 & c10 & c11 & c12 & c13 &
        c20 & c21 & c22 & c23 & c30 & c31 & c32 & c33 & ->). reflexivity.
Qed.

Lemma get_in_concat g x y v : get g x y = Some v -> In v (concat g).
Proof.
  unfold get. intros H. apply bind_some in H. destruct H as (row & Hrow & H).
  apply in_concat. exists row. split; eapply nth_error_In; eassumption.
Qed.

(** Reading a cell after writing one: the value written, or the old one. *)
Lemma get_after_set g x y v g' x' y' :
  set g x y v = Some g' ->
  get g' x' y' = if node_eqb (mkNode x' y') (mkNode x y) then Some v else get g x' y'.
Proof.
  intros H. destruct (set_spec _ _ _ _ _ H) as (_ & Hsame & Hother & _).
  destruct (node_eqb (mkNode x' y') (mkNode x y)) eqn:E.
  - apply node_eqb_eq in E. injection E as -> ->. exact Hsame.
  - apply Hother. intros E'. injection E' as -> ->.
    assert (node_eqb (mkNode x y) (mkNode x y) = true) by (apply node_eqb_eq; reflexivity).
    congruence.
Qed.

(** The two assignments of a merge. *)
Lemma merge_step_bounded g ax ay bx by_ v g1 vb1 g2 :
  bounded g ->
  get g ax ay = Some v -> get g bx by_ = Some v ->
  set g ax ay 0 = Some g1 ->
  get g1 bx by_ = Some vb1 ->
  set g1 bx by_ (wrap (vb1 * 2)) = Some g2 ->
  bounded g2.
Proof.
  intros [Hwf Hb] Ha Hb' H1 Hv1 H2.
  split; [eapply set_wf4; [exact H2|]; eapply set_wf4; eassumption|].
  destruct (set_concat _ _ _ _ _ H1) as (l1 & old & l2 & Hold & E & E1).
  destruct (set_concat _ _ _ _ _ H2) as (l3 & old' & l4 & Hold' & E1' & E2).
  assert (old = v) by congruence. assert (old' = vb1) by congruence. subst old old'.
  rewrite E in Hb. rewrite E2.
  rewrite (get_after_set _ _ _ _ _ bx by_ H1) in Hv1.
  destruct (node_eqb (mkNode bx by_) (mkNode ax ay)).
  - injection Hv1 as <-. change (wrap (0 * 2)) with 0.
    rewrite <- E1', E1. eapply bounded_cells_clear. exact Hb.
  - assert (vb1 = v) by congruence. subst vb1.
    apply (bounded_cells_merge l1 l2 l3 l4 v Hb). congruence.
Qed.

(** The two assignments of a swap. *)
Lemma swap_step_bounded g ax ay bx by_ va vb g1 g2 :
  bounded g ->
  get g ax ay = Some va -> get g bx by_ = Some vb ->
  set g ax ay vb = Some g1 ->
  set g1 bx by_ va = Some g2 ->
  bounded g2.
Proof.
  intros [Hwf Hb] Ha Hb' H1 H2.
  split; [eapply set_wf4; [exact H2|]; eapply set_wf4; eassumption|].
  destruct (set_concat _ _ _ _ _ H1) as (l1 & old & l2 & Hold & E & E1).
  destruct (set_concat _ _ _ _ _ H2) as (l3 & old' & l4 & Hold' & E1' & E2).
  assert (old = va) by congruence. subst old.
  assert (old' = vb).
  { rewrite (get_after_set _ _ _ _ _ bx by_ H1) in Hold'.
    destruct (node_eqb (mkNode bx by_) (mkNode ax ay)); congruence. }
  subst old'. rewrite E2. rewrite E in Hb.
  apply (bounded_cells_swap l1 l2 l3 l4 va vb Hb).
  - rewrite <- E. eapply get_in_concat. exact Hb'.
  - congruence.
Qed.

Lemma merge_loop_bounded fuel : forall g a g',
  bounded g -> merge_loop fuel g a = Some g' -> bounded g'.
Proof.
  induction fuel as [|fuel IH]; intros g a g' Hb H; simpl in H.
  - injection H as <-. exact Hb.
  - inv_bind H. destruct x as [|an anext]; [injection H as <-; exact Hb|].
    inv_bind H. destruct x as [|bn bnext]; [injection H as <-; exact Hb|].
    cbn [coords] in H.
    inv_bind H. rename x into va. inv_bind H. rename x into vb.
    inv_bind H. rename x into g1.
    apply (IH g1 anext g'); [|exact H].
    destruct (Z.eqb_spec va vb) as [->|_]; [|injection E3 as <-; exact Hb].
    inv_bind E3. inv_bind E3.
    eapply merge_step_bounded; [exact Hb | exact E1 | exact E2 | exact E4 | exact E5 | exact E3].
Qed.

Lemma pull_bounded b : forall g ax ay g',
  bounded g -> pull g ax ay b = Some g' -> bounded g'.
Proof.
  induction b as [|bn bnext IH]; intros g ax ay g' Hb H; simpl in H.
  - injection H as <-. exact Hb.
  - inv_bind H. rename x into vb.
    destruct (vb =? 0); simpl in H; [eapply IH; eassumption|].
    inv_bind H. inv_bind H.
    eapply swap_step_bounded; [exact Hb | exact E0 | exact E | exact E1 | exact H].
Qed.

Lemma shift_loop_bounded n : forall g a g',
  bounded g -> shift_loop n g a = Some g' -> bounded g'.
Proof.
  induction n as [|n IH]; intros g a g' Hb H; simpl in H.
  - injection H as <-. exact Hb.
  - destruct a as [|an anext]; [discriminate|]. cbn [coords] in H.
    inv_bind H. inv_bind H. apply (IH x0 anext g'); [|exact H].
    destruct (x =? 0); [eapply pull_bounded; eassumption | injection E0 as <-; exact Hb].
Qed.

Lemma tilt_grid_bounded f : forall g g',
  bounded g -> tilt_grid g f = Some g' -> bounded g'.
Proof.
  induction f as [|l f IH]; intros g g' Hb H; cbn [tilt_grid] in H.
  - injection H as <-. exact Hb.
  - inv_bind H. apply (IH x g'); [|exact H].
    unfold tilt_list in E. inv_bind E.
    eapply shift_loop_bounded; [|exact E].
    eapply merge_loop_bounded; eassumption.
Qed.

Lemma place_bounded b rnd b' :
  bounded (grid b) -> place b rnd = Some b' -> bounded (grid b').
Proof.
  intros [Hwf Hb] H. unfold place in H.
  inv_bind H. inv_bind H. cbn [coords] in H. inv_bind H. injection H as <-.
  cbn [grid with_grid].
  split; [eapply set_wf4; eassumption|].
  destruct (set_concat _ _ _ _ _ E1) as (l1 & old & l2 & Hold & Ec & Ec').
  assert (Hz : get (grid b) (nx x0) (ny x0) = Some 0)
    by (apply options_spec; eapply nth_error_In; exact E0).
  assert (old = 0) by congruence. subst old.
  rewrite Ec'. rewrite Ec in Hb. apply bounded_cells_spawn; [|exact Hb].
  rewrite <- Ec. apply wf4_cells. exact Hwf.
Qed.

Lemma createBoard_bounded : bounded (grid createBoard).
Proof.
  split; [split; [reflexivity | repeat constructor]|].
  split.
  - cbn. repeat constructor; left; reflexivity.
  - intros k Hk. change (concat (grid createBoard)) with (repeat 0 16).
    unfold rank_count. cbn [repeat map zsum fold_right]. rewrite (ind_zero k (proj1 Hk)). lia.
Qed.

(** ** The boards a game can reach *)

Lemma place_shape b rnd b' :
  place b rnd = Some b' -> exists g', b' = with_grid b g'.
Proof.
  unfold place. intros H. inv_bind H. inv_bind H. cbn [coords] in H. inv_bind H.
  injection H as <-. eauto.
Qed.

Lemma tilt_bounded g f g' :
  bounded g -> tilt (board_of g) f = Some (board_of g') -> bounded g'.
Proof.
  intros Hb H. unfold tilt in H. cbn [grid board_of with_grid] in H.
  inv_bind H. injection H as <-. eapply tilt_grid_bounded; eassumption.
Qed.

Lemma reachable_bounded m :
  reachable m -> exists g, m = mkModel (board_of g) /\ bounded g.
Proof.
  induction 1 as [rnd1 rnd2 m H | m msg rnd m' c _ IH H].
  - unfold createModel in H. inv_bind H. rename x into b1. inv_bind H. rename x into b2.
    injection H as <-.
    assert (B1 := place_bounded _ _ _ createBoard_bounded E).
    assert (B2 := place_bounded _ _ _ B1 E0).
    destruct (place_shape _ _ _ E) as (g1 & ->).
    destruct (place_shape _ _ _ E0) as (g2 & ->).
    exists g2. split; [reflexivity | exact B2].
  - destruct IH as (g & -> & Hb).
    destruct (Update_cases g msg rnd (proj1 Hb))
      as [E | [E | (d & g' & Ht & Hwf' & _ & E)]]; rewrite E in H.
    + injection H as <- <-. eauto.
    + injection H as <- <-. eauto.
    + assert (Hb' := tilt_bounded g _ g' Hb Ht).
      unfold settle in H. destruct (grid_eq_dec g' g) as [_|_].
      * injection H as <- <-. eauto.
      * inv_bind H. injection H as <- <-.
        assert (B := place_bounded (board_of g') rnd x Hb' E0).
        destruct (place_shape _ _ _ E0) as (g2 & ->).
        exists g2. split; [reflexivity | exact B].
Qed.

Lemma tile16_tile v : tile16 v -> tile v.
Proof.
  intros [->|(e & He & ->)]; [left; reflexivity|].
  right. exists e. split; [lia | reflexivity].
Qed.

(** C8.  In every model reached from [createModel] by any
    sequence of [Update] calls, every cell is 0 or a power of two from 2 on;
    and from such a model [Update] never panics. *)
Theorem reachable_cells_are_tiles m :
  reachable m ->
  Forall (Forall tile) (grid (m_board m)) /\
  (forall msg rnd, Update m msg rnd <> None).
Proof.
  intros H. destruct (reachable_bounded m H) as (g & -> & Hwf & Ht & _).
  split.
  - cbn [m_board grid board_of with_grid]. apply Forall_concat.
    eapply Forall_impl; [|exact Ht]. exact tile16_tile.
  - intros msg rnd. apply Update_total. exact Hwf.
Qed.

Lemma reachable_after_two_moves : reachable after_two_moves.
Proof.
  apply (reach_step
           (mkModel (board_of [[0; 0; 0; 2]; [2; 0; 0; 0]; [2; 0; 0; 0]; [0; 0; 0; 0]]))
           (KeyMsg "up"%string) 11 _ NoCmd); [|reflexivity].
  apply (reach_step
           (mkModel (board_of [[0; 0; 0; 0]; [0; 2; 0; 0]; [2; 0; 0; 0]; [0; 0; 0; 0]]))
           (KeyMsg "h"%string) 3 _ NoCmd); [|reflexivity].
  apply (reach_init 5 7). reflexivity.
Qed.

Lemma reachable_cells_are_tiles_witness :
  reachable after_two_moves /\
  Forall (Forall tile) (grid (m_board after_two_moves)) /\
  (forall msg rnd, Update after_two_moves msg rnd <> None).
Proof.
  split; [exact reachable_after_two_moves|].
  apply (reachable_cells_are_tiles after_two_moves). exact reachable_after_two_moves.
Defined.

(** * More of the program *)

(** ** Lines, tiles and merges *)

Section LineMore.

Variables a b c d : Z.

Lemma line_unchanged_settled :
  line [a; b; c; d] = [a; b; c; d] ->
  compacted [a; b; c; d] /\ no_pair [a; b; c; d].
Proof.
  rewrite compacted4, no_pair4.
  line_cases; eqb_props; intros H; try (injection H; intros);
    repeat match goal with
           | H : wrap (?v * 2) = ?v |- _ => apply wrap_double_fix in H
           end;
    try (exfalso; congruence);
    repeat split; intros; congruence.
Qed.

Lemma line_tiles :
  0 <= a -> 0 <= b -> 0 <= c -> 0 <= d -> a + b + c + d <= int_max ->
  (tiles (line [a; b; c; d]) + length (line_log [a; b; c; d]) = tiles [a; b; c; d])%nat.
Proof.
  unfold int_max, int_bits. change (2 ^ (64 - 1)) with 9223372036854775808.
  intros Ha Hb Hc Hd Hs.
  line_cases; unfold tiles; cbn [filter];
    repeat match goal with
           | H : Z.eqb ?x ?y = _ |- context [Z.eqb ?x ?y] => rewrite H
           end; cbn;
    try reflexivity; eqb_props;
    pose proof wrap_small as W; unfold int_min, int_max, int_bits in W;
    change (2 ^ (64 - 1)) with 9223372036854775808 in W;
    repeat match goal with
         | H : context [wrap ?x] |- _ => rewrite (W x) in H by lia
         | |- context [wrap ?x] => rewrite (W x) by lia
         end;
    repeat match goal with
         | |- context [Z.eqb ?x ?y] => destruct (Z.eqb_spec x y)
         end; cbn; try reflexivity; lia.
Qed.

Lemma line_log_forward :
  Forall (fun m => (nx (m_src m) < nx (m_dst m) < 4)%nat /\ m_val m <> 0)
         (line_log [a; b; c; d]).
Proof.
  line_cases; eqb_props; repeat (constructor; cbn; try lia; try congruence).
Qed.

End LineMore.

(** X1.  For every 4x4 grid and direction, [tilt] returns the grid it was
    given exactly when every line of the direction is compacted and holds
    no two equal tiles next to each other: these are the moves after which
    [Update] places no tile. *)
Theorem tilt_fixed_iff_settled g d :
  wf4 g ->
  (tilt (board_of g) (face_of (board_of g) d) = Some (board_of g) <->
   forall l, In l (face_of (board_of g) d) ->
             compacted (reads g l) /\ no_pair (reads g l)).
Proof.
  intros Hwf. destruct (tilt_lines g d Hwf) as (g' & Ht & _ & Hwf' & Hl).
  rewrite Ht. split.
  - intros E. apply (f_equal (option_map grid)) in E. injection E as E. subst g'.
    intros l Hin. rewrite face_of_board_of in Hin.
    destruct (reads_line4 g l Hwf (in_all_lists d l Hin)) as (a & b & c & e & E).
    specialize (Hl l Hin). rewrite E in *.
    apply line_unchanged_settled. symmetry. exact Hl.
  - intros Hfix. f_equal. f_equal.
    apply (reads_face_eq g g' d Hwf Hwf'). intros l Hin.
    rewrite (Hl l Hin).
    destruct (Hfix l) as [Hc Hn]; [rewrite face_of_board_of; exact Hin|].
    destruct (reads_line4 g l Hwf (in_all_lists d l Hin)) as (a & b & c & e & E).
    rewrite E in *. apply line_fixed; assumption.
Qed.

Lemma tilt_fixed_iff_settled_witness :
  wf4 settled /\
  (tilt (board_of settled) (face_of (board_of settled) Left) = Some (board_of settled) <->
   forall l, In l (face_of (board_of settled) Left) ->
             compacted (reads settled l) /\ no_pair (reads settled l)).
Proof.
  split; [exact wf4_settled | apply (tilt_fixed_iff_settled settled Left); exact wf4_settled].
Defined.

(** X2.  The lines of a direction do not touch each other: two 4x4 grids
    that read alike along one list of a face read alike along it after
    [tilt], whatever their other cells hold. *)
Theorem tilt_line_local g1 g2 d l :
  wf4 g1 -> wf4 g2 ->
  In l (face_of createBoard d) ->
  reads g1 l = reads g2 l ->
  exists g1' g2',
    tilt (board_of g1) (face_of (board_of g1) d) = Some (board_of g1') /\
    tilt (board_of g2) (face_of (board_of g2) d) = Some (board_of g2') /\
    reads g1' l = reads g2' l.
Proof.
  intros H1 H2 Hin E.
  destruct (tilt_lines g1 d H1) as (g1' & Ht1 & _ & _ & Hl1).
  destruct (tilt_lines g2 d H2) as (g2' & Ht2 & _ & _ & Hl2).
  exists g1', g2'. split; [exact Ht1|]. split; [exact Ht2|].
  rewrite (Hl1 l Hin), (Hl2 l Hin), E. reflexivity.
Qed.

Lemma tilt_line_local_witness :
  wf4 sample /\ wf4 sample_column /\
  In [mkNode 1 0; mkNode 1 1; mkNode 1 2; mkNode 1 3] (face_of createBoard Up) /\
  reads sample [mkNode 1 0; mkNode 1 1; mkNode 1 2; mkNode 1 3] =
  reads sample_column [mkNode 1 0; mkNode 1 1; mkNode 1 2; mkNode 1 3] /\
  exists g1' g2',
    tilt (board_of sample) (face_of (board_of sample) Up) = Some (board_of g1') /\
    tilt (board_of sample_column) (face_of (board_of sample_column) Up) =
      Some (board_of g2') /\
    reads g1' [mkNode 1 0; mkNode 1 1; mkNode 1 2; mkNode 1 3] =
    reads g2' [mkNode 1 0; mkNode 1 1; mkNode 1 2; mkNode 1 3].
Proof.
  assert (Hwf : wf4 sample_column) by (split; [reflexivity | repeat constructor]).
  split; [exact wf4_sample|]. split; [exact Hwf|].
  split; [simpl; tauto|]. split; [reflexivity|].
  apply (tilt_line_local sample sample_column Up);
    [exact wf4_sample | exact Hwf | simpl; tauto | reflexivity].
Defined.

Lemma tiles_cons x l : tiles (x :: l) = (tiles [x] + tiles l)%nat.
Proof. unfold tiles. cbn [filter]. destruct (negb (x =? 0)); reflexivity. Qed.

Lemma tiles4 a b c d :
  tiles [a; b; c; d] = (tiles [a] + tiles [b] + tiles [c] + tiles [d])%nat.
Proof. rewrite (tiles_cons a), (tiles_cons b), (tiles_cons c). lia. Qed.

Lemma grid_tiles_g4 c00 c01 c02 c03 c10 c11 c12 c13 c20 c21 c22 c23 c30 c31 c32 c33 :
  grid_tiles (g4 c00 c01 c02 c03 c10 c11 c12 c13 c20 c21 c22 c23 c30 c31 c32 c33) =
  (tiles [c00] + tiles [c01] + tiles [c02] + tiles [c03] +
   tiles [c10] + tiles [c11] + tiles [c12] + tiles [c13] +
   tiles [c20] + tiles [c21] + tiles [c22] + tiles [c23] +
   tiles [c30] + tiles [c31] + tiles [c32] + tiles [c33])%nat.
Proof.
  unfold grid_tiles. cbn [concat app].
  repeat match goal with
         | |- context [tiles (?x :: ?y :: ?l)] => rewrite (tiles_cons x (y :: l))
         end. lia.
Qed.

Ltac line_tiles_of H :=
  match type of H with
  | _ = line [?a; ?b; ?c; ?d] =>
      let S := fresh "S" in
      assert (S := line_tiles a b c d); rewrite <- H in S;
      rewrite !tiles4 in S
  end.

(** X3.  On a 4x4 grid of non-negative cells whose sum is an [int], [tilt]
    leaves as many tiles fewer as it performs merges: every merge removes
    exactly one tile and nothing else does. *)
Theorem tilt_tiles g d :
  wf4 g ->
  Forall (Forall (fun v => 0 <= v)) g ->
  grid_sum g <= int_max ->
  exists g' lg,
    tilt (board_of g) (face_of (board_of g) d) = Some (board_of g') /\
    tilt_grid_log g (face_of (board_of g) d) = Some (g', lg) /\
    (grid_tiles g' + length lg = grid_tiles g)%nat.
Proof.
  intros Hwf Hpos Hmax. destruct (tilt_lines g d Hwf) as (g' & Ht & Hlog & Hwf' & Hl).
  exists g'; eexists. split; [exact Ht|].
  split; [rewrite face_of_board_of; exact Hlog|].
  clear Ht Hlog.
  destruct (wf4_g4 g Hwf)
    as (c00 & c01 & c02 & c03 & c10 & c11 & c12 & c13 &
        c20 & c21 & c22 & c23 & c30 & c31 & c32 & c33 & ->).
  destruct (wf4_g4 g' Hwf')
    as (e00 & e01 & e02 & e03 & e10 & e11 & e12 & e13 &
        e20 & e21 & e22 & e23 & e30 & e31 & e32 & e33 & ->).
  repeat (apply Forall_cons_iff in Hpos; destruct Hpos as [? Hpos]).
  repeat match goal with
         | H : Forall _ (_ :: _) |- _ =>
             apply Forall_cons_iff in H; destruct H as [? H]
         end.
  cbv beta in *. unfold grid_sum in Hmax. cbn [map zsum fold_right] in Hmax.
  rewrite !grid_tiles_g4.
  destruct d;
    [explicit_face Up in Hl; explicit_face Up
    | explicit_face Down in Hl; explicit_face Down
    | explicit_face Left in Hl; explicit_face Left
    | explicit_face Right in Hl; explicit_face Right];
    pose proof (Hl _ (or_introl eq_refl)) as L0;
    pose proof (Hl _ (or_intror (or_introl eq_refl))) as L1;
    pose proof (Hl _ (or_intror (or_intror (or_introl eq_refl)))) as L2;
    pose proof (Hl _ (or_intror (or_intror (or_intror (or_introl eq_refl))))) as L3;
    cbn in L0, L1, L2, L3;
    line_tiles_of L0; line_tiles_of L1; line_tiles_of L2; line_tiles_of L3;
    cbn [flat_map reads map get nth_error bind nx ny];
    rewrite ?app_nil_r, ?length_app, ?length_map; lia.
Qed.

Lemma tilt_tiles_witness :
  wf4 sample /\ Forall (Forall (fun v => 0 <= v)) sample /\ grid_sum sample <= int_max /\
  exists g' lg,
    tilt (board_of sample) (face_of (board_of sample) Right) = Some (board_of g') /\
    tilt_grid_log sample (face_of (board_of sample) Right) = Some (g', lg) /\
    (grid_tiles g' + length lg = grid_tiles sample)%nat.
Proof.
  assert (Hpos : Forall (Forall (fun v => 0 <= v)) sample)
    by (repeat constructor; lia).
  assert (Hmax : grid_sum sample <= int_max) by (vm_compute; discriminate).
  split; [exact wf4_sample|]. split; [exact Hpos|]. split; [exact Hmax|].
  apply (tilt_tiles sample Right); [exact wf4_sample | exact Hpos | exact Hmax].
Defined.

(** X4.  Every merge of a [tilt] on a 4x4 grid joins two cells of one list
    of the face, empties the one nearer the head and doubles the one
    behind it, and the value merged is not 0. *)
Theorem merges_go_tailward g d :
  wf4 g ->
  exists g' lg,
    tilt_grid_log g (face_of (board_of g) d) = Some (g', lg) /\
    forall m, In m lg ->
      m_val m <> 0 /\
      exists l i j,
        In l (face_of (board_of g) d) /\ (i < j < 4)%nat /\
        nth_error l i = Some (m_src m) /\ nth_error l j = Some (m_dst m).
Proof.
  intros Hwf. destruct (tilt_lines g d Hwf) as (g' & _ & Hlog & _ & _).
  exists g'; eexists. rewrite face_of_board_of. split; [exact Hlog|].
  intros m Hm. apply in_flat_map in Hm. destruct Hm as (l & Hin & Hm).
  apply in_map_iff in Hm. destruct Hm as (m0 & <- & Hm0).
  destruct (reads_line4 g l Hwf (in_all_lists d l Hin)) as (a & b & c & e & E).
  rewrite E in Hm0.
  assert (F := line_log_forward a b c e). rewrite Forall_forall in F.
  destruct (F m0 Hm0) as [Hij Hv].
  split; [exact Hv|].
  exists l, (nx (m_src m0)), (nx (m_dst m0)).
  destruct (faces_NoDup d) as [_ Hls]. rewrite Forall_forall in Hls.
  destruct (Hls l Hin) as [_ Hlen].
  split; [exact Hin|]. split; [exact Hij|].
  cbn [relocate m_src m_dst]. split; apply nth_error_nth'; lia.
Qed.

Lemma merges_go_tailward_witness :
  wf4 sample /\
  exists g' lg,
    tilt_grid_log sample (face_of (board_of sample) Down) = Some (g', lg) /\
    forall m, In m lg ->
      m_val m <> 0 /\
      exists l i j,
        In l (face_of (board_of sample) Down) /\ (i < j < 4)%nat /\
        nth_error l i = Some (m_src m) /\ nth_error l j = Some (m_dst m).
Proof.
  split; [exact wf4_sample | apply (merges_go_tailward sample Down); exact wf4_sample].
Defined.

(** ** The four directions *)

Lemma tilt_grid_lines g d :
  wf4 g ->
  exists g',
    tilt_grid g (face_of createBoard d) = Some g' /\ wf4 g' /\
    forall l, In l (face_of createBoard d) -> reads g' l = line (reads g l).
Proof.
  intros Hwf. destruct (tilt_lines g d Hwf) as (g' & _ & Hlog & Hwf' & Hl).
  exists g'. split; [|split; assumption].
  rewrite tilt_grid_log_grid, Hlog. reflexivity.
Qed.

Ltac four_lines Hl L0 L1 L2 L3 :=
  pose proof (Hl _ (or_introl eq_refl)) as L0;
  pose proof (Hl _ (or_intror (or_introl eq_refl))) as L1;
  pose proof (Hl _ (or_intror (or_intror (or_introl eq_refl)))) as L2;
  pose proof (Hl _ (or_intror (or_intror (or_intror (or_introl eq_refl))))) as L3;
  cbn in L0, L1, L2, L3.

Ltac mirrored d1 d2 g Hwf :=
  destruct (wf4_g4 g Hwf)
    as (c00 & c01 & c02 & c03 & c10 & c11 & c12 & c13 &
        c20 & c21 & c22 & c23 & c30 & c31 & c32 & c33 & ->);
  match goal with
  | |- tilt_grid ?h _ = _ =>
      let h' := eval cbn in h in
      change h with h';
      let H1 := fresh "H" in
      let H2 := fresh "H" in
      let E1 := fresh "E" in
      let E2 := fresh "E" in
      let W1 := fresh "W" in
      let W2 := fresh "W" in
      destruct (tilt_grid_lines h' d1 (wf4_of_g4 _ _ _ _ _ _ _ _ _ _ _ _ _ _ _ _))
        as (g1 & E1 & W1 & H1);
      destruct (tilt_grid_lines _ d2 Hwf) as (g2 & E2 & W2 & H2);
      change (face_of createBoard d1) with (face_of (board_of h') d1) in E1;
      cbn [face_of board_of with_grid top bottom left right] in E1, E2;
      rewrite E1, E2; cbn [option_map];
      destruct (wf4_g4 g1 W1)
        as (e00 & e01 & e02 & e03 & e10 & e11 & e12 & e13 &
            e20 & e21 & e22 & e23 & e30 & e31 & e32 & e33 & ->);
      destruct (wf4_g4 g2 W2)
        as (f00 & f01 & f02 & f03 & f10 & f11 & f12 & f13 &
            f20 & f21 & f22 & f23 & f30 & f31 & f32 & f33 & ->);
      explicit_face d1 in H1; explicit_face d2 in H2;
      let A0 := fresh "A" in let A1 := fresh "A" in
      let A2 := fresh "A" in let A3 := fresh "A" in
      let B0 := fresh "B" in let B1 := fresh "B" in
      let B2 := fresh "B" in let B3 := fresh "B" in
      four_lines H1 A0 A1 A2 A3; four_lines H2 B0 B1 B2 B3;
      cbn; congruence
  end.

(** X5.  The four faces run one algorithm: on a 4x4 grid, moving right is
    moving left on the grid with its rows reversed, moving down is moving up
    on the grid turned upside down, and moving up is moving left on the
    transposed grid. *)
Theorem tilt_directions_agree g :
  wf4 g ->
  tilt_grid (mirror g) (left createBoard) =
    option_map mirror (tilt_grid g (right createBoard)) /\
  tilt_grid (flip g) (top createBoard) =
    option_map flip (tilt_grid g (bottom createBoard)) /\
  tilt_grid (transpose4 g) (left createBoard) =
    option_map transpose4 (tilt_grid g (top createBoard)).
Proof.
  intros Hwf. split; [|split].
  - mirrored Left Right g Hwf.
  - mirrored Up Down g Hwf.
  - mirrored Left Up g Hwf.
Qed.

Lemma tilt_directions_agree_witness :
  wf4 sample /\
  tilt_grid (mirror sample) (left createBoard) =
    option_map mirror (tilt_grid sample (right createBoard)) /\
  tilt_grid (flip sample) (top createBoard) =
    option_map flip (tilt_grid sample (bottom createBoard)) /\
  tilt_grid (transpose4 sample) (left createBoard) =
    option_map transpose4 (tilt_grid sample (top createBoard)).
Proof.
  split; [exact wf4_sample | apply (tilt_directions_agree sample); exact wf4_sample].
Defined.

(** ** Update, message by message *)

Lemma key_in_iff s ks : key_in s ks = true <-> In s ks.
Proof.
  unfold key_in. rewrite existsb_exists. split.
  - intros (k & Hk & E). apply String.eqb_eq in E. subst. exact Hk.
  - intros H. exists s. split; [exact H | apply String.eqb_refl].
Qed.

Lemma key_in_false s ks : ~ In s ks -> key_in s ks = false.
Proof.
  intros H. destruct (key_in s ks) eqn:E; [|reflexivity].
  apply key_in_iff in E. contradiction.
Qed.

Lemma handle_key_other b s :
  ~ In s move_keys ->
  handle_key b s = if key_in s quit_keys then Some None else Some (Some b).
Proof.
  unfold move_keys. rewrite !in_app_iff. intros H. unfold handle_key, quit_keys.
  destruct (key_in s ["ctrl+c"; "q"]%string); [reflexivity|].
  rewrite (key_in_false s ["left"; "h"]%string) by (intros H'; apply H; auto).
  rewrite (key_in_false s ["up"; "k"]%string) by (intros H'; apply H; auto).
  rewrite (key_in_false s ["right"; "l"]%string) by (intros H'; apply H; auto).
  rewrite (key_in_false s ["down"; "j"]%string) by (intros H'; apply H; auto).
  reflexivity.
Qed.

(** X6.  On a 4x4 board a message that is none of the eight move keys
    leaves the board as it is, without a new tile; the command returned is
    [Quit] exactly for the keys ctrl+c and q. *)
Theorem Update_ignores_other g msg rnd :
  wf4 g ->
  (forall s, msg = KeyMsg s -> ~ In s move_keys) ->
  exists c,
    Update (mkModel (board_of g)) msg rnd = Some (mkModel (board_of g), c) /\
    (c = Quit <-> exists s, msg = KeyMsg s /\ In s quit_keys).
Proof.
  intros Hwf Hother. unfold Update. cbn [m_board]. change (grid (board_of g)) with g.
  rewrite (snapshot_wf4 g Hwf). cbn [bind].
  assert (Hsame : settle g g rnd = Some (mkModel (board_of g), NoCmd)).
  { unfold settle. destruct (grid_eq_dec g g); [reflexivity | congruence]. }
  destruct msg as [s|].
  - rewrite (handle_key_other _ s (Hother s eq_refl)).
    destruct (key_in s quit_keys) eqn:E; cbn [bind].
    + exists Quit. split; [reflexivity|]. split; [|reflexivity].
      intros _. exists s. split; [reflexivity | apply key_in_iff; exact E].
    + exists NoCmd. rewrite (Update_tail g g rnd Hwf Hwf). split; [exact Hsame|].
      split; [discriminate|]. intros (s' & Hs' & Hin). injection Hs' as <-.
      apply key_in_iff in Hin. congruence.
  - exists NoCmd. cbn [bind]. rewrite (Update_tail g g rnd Hwf Hwf). split; [exact Hsame|].
    split; [discriminate|]. intros (s' & Hs' & _). discriminate.
Qed.

Lemma Update_ignores_other_witness :
  wf4 sample /\
  (forall s, KeyMsg "x"%string = KeyMsg s -> ~ In s move_keys) /\
  exists c,
    Update (mkModel (board_of sample)) (KeyMsg "x"%string) 4 =
      Some (mkModel (board_of sample), c) /\
    (c = Quit <-> exists s, KeyMsg "x"%string = KeyMsg s /\ In s quit_keys).
Proof.
  assert (H : forall s, KeyMsg "x"%string = KeyMsg s -> ~ In s move_keys).
  { intros s E. injection E as <-. simpl. intuition discriminate. }
  split; [exact wf4_sample|]. split; [exact H|].
  apply (Update_ignores_other sample (KeyMsg "x"%string) 4); [exact wf4_sample | exact H].
Defined.

(** X7.  On a 4x4 board a move key makes [Update] return either the board
    unchanged, when [tilt] changed nothing, or the grid [tilt] left with one
    of its empty cells, picked by the draw among [options], set to 2. *)
Theorem Update_move_then_spawn g d s rnd :
  wf4 g -> In s (keys_of d) ->
  exists g',
    tilt (board_of g) (face_of (board_of g) d) = Some (board_of g') /\
    ((g' = g /\
      Update (mkModel (board_of g)) (KeyMsg s) rnd = Some (mkModel (board_of g), NoCmd)) \/
     (g' <> g /\
      exists n g'',
        nth_error (options g') (Nat.modulo rnd (length (options g'))) = Some n /\
        get g' (nx n) (ny n) = Some 0 /\
        set g' (nx n) (ny n) 2 = Some g'' /\
        Update (mkModel (board_of g)) (KeyMsg s) rnd = Some (mkModel (board_of g''), NoCmd))).
Proof.
  intros Hwf Hs. destruct (Update_move g d s rnd Hwf Hs) as (g' & Ht & Hwf' & Hl & ->).
  exists g'. split; [exact Ht|]. unfold settle.
  destruct (grid_eq_dec g' g) as [E|Hne].
  - left. subst g'. auto.
  - right. split; [exact Hne|].
    assert (Hz : has_zero (grid (board_of g')))
      by (apply (tilt_changed_zero g g' d); assumption).
    destruct (place_some (board_of g') rnd Hz) as (n & g'' & Hp & Hn & Hset).
    cbn [grid board_of with_grid] in Hn, Hset.
    exists n, g''. split; [exact Hn|].
    split; [apply options_spec; eapply nth_error_In; exact Hn|].
    split; [exact Hset|]. rewrite Hp. reflexivity.
Qed.

Lemma Update_move_then_spawn_witness :
  wf4 sample /\ In "l"%string (keys_of Right) /\
  exists g',
    tilt (board_of sample) (face_of (board_of sample) Right) = Some (board_of g') /\
    ((g' = sample /\
      Update (mkModel (board_of sample)) (KeyMsg "l"%string) 6 =
        Some (mkModel (board_of sample), NoCmd)) \/
     (g' <> sample /\
      exists n g'',
        nth_error (options g') (Nat.modulo 6 (length (options g'))) = Some n /\
        get g' (nx n) (ny n) = Some 0 /\
        set g' (nx n) (ny n) 2 = Some g'' /\
        Update (mkModel (board_of sample)) (KeyMsg "l"%string) 6 =
          Some (mkModel (board_of g''), NoCmd))).
Proof.
  split; [exact wf4_sample|]. split; [simpl; auto|].
  apply (Update_move_then_spawn sample Right "l"%string 6); [exact wf4_sample | simpl; auto].
Defined.

(** X8.  A 4x4 board whose lines are settled in all four directions is
    stuck: every message leaves it as it is, and [Update] still returns. *)
Theorem stuck_board_stays g msg rnd :
  wf4 g ->
  (forall d l, In l (face_of createBoard d) ->
               compacted (reads g l) /\ no_pair (reads g l)) ->
  exists c, Update (mkModel (board_of g)) msg rnd = Some (mkModel (board_of g), c).
Proof.
  intros Hwf Hstuck.
  destruct (Update_cases g msg rnd Hwf)
    as [-> | [-> | (d & g' & _ & Hwf' & Hl & ->)]]; eauto.
  assert (E : g' = g).
  { apply (reads_face_eq g g' d Hwf Hwf'). intros l Hin.
    rewrite (Hl l Hin). destruct (Hstuck d l Hin) as [Hc Hn].
    destruct (reads_line4 g l Hwf (in_all_lists d l Hin)) as (a & b & c & e & E).
    rewrite E in *. apply line_fixed; assumption. }
  subst g'. exists NoCmd. unfold settle.
  destruct (grid_eq_dec g g); [reflexivity | congruence].
Qed.

Lemma full_grid_stuck d l :
  In l (face_of createBoard d) ->
  compacted (reads full_grid l) /\ no_pair (reads full_grid l).
Proof.
  intros H. destruct d; simpl in H;
    repeat (destruct H as [<- | H];
            [cbn; rewrite compacted4, no_pair4; lia|]);
    contradiction.
Qed.

Lemma stuck_board_stays_witness :
  wf4 full_grid /\
  (forall d l, In l (face_of createBoard d) ->
               compacted (reads full_grid l) /\ no_pair (reads full_grid l)) /\
  exists c,
    Update (mkModel (board_of full_grid)) (KeyMsg "up"%string) 2 =
      Some (mkModel (board_of full_grid), c).
Proof.
  assert (Hwf : wf4 full_grid) by (split; [reflexivity | repeat constructor]).
  split; [exact Hwf|]. split; [exact full_grid_stuck|].
  apply (stuck_board_stays full_grid (KeyMsg "up"%string) 2); [exact Hwf | exact full_grid_stuck].
Defined.

(** ** changed *)

(** X9.  On 4x4 grids [changed] never panics and answers true exactly when
    the grid of the board differs from the snapshot in some cell. *)
Theorem changed_iff_differs g g' :
  wf4 g -> wf4 g' ->
  exists c, changed (board_of g') g = Some c /\ (c = true <-> g' <> g).
Proof.
  intros Hwf Hwf'. rewrite (changed_spec g g' Hwf Hwf').
  destruct (grid_eq_dec g' g) as [E|N]; eexists; (split; [reflexivity|]).
  - split; [discriminate | contradiction].
  - split; [intros _; exact N | reflexivity].
Qed.

Lemma changed_iff_differs_witness :
  wf4 sample /\ wf4 settled /\
  exists c, changed (board_of settled) sample = Some c /\ (c = true <-> settled <> sample).
Proof.
  split; [exact wf4_sample|]. split; [exact wf4_settled|].
  apply (changed_iff_differs sample settled); [exact wf4_sample | exact wf4_settled].
Defined.

(** ** The snapshot *)

Lemma update_at {A} (l : list A) : forall i v,
  update l i v =
    if (i <? length l)%nat then Some (firstn i l ++ v :: skipn (S i) l) else None.
Proof.
  induction l as [|hd tl IH]; intros i v; simpl.
  - destruct i; reflexivity.
  - destruct i as [|i]; [reflexivity|].
    rewrite IH. change (S i <? S (length tl))%nat with (i <? length tl)%nat.
    destruct (i <? length tl)%nat; reflexivity.
Qed.

Lemma snapshot_rows_spec g : forall y prev,
  (y <= length prev)%nat ->
  snapshot_rows g y prev =
    if (y + length g <=? length prev)%nat
    then Some (firstn y prev ++ map copy4 g ++ skipn (y + length g) prev)
    else None.
Proof.
  induction g as [|row tl IH]; intros y prev Hy; simpl.
  - rewrite Nat.add_0_r. destruct (Nat.leb_spec y (length prev)); [|lia].
    rewrite firstn_skipn. reflexivity.
  - rewrite update_at.
    destruct (Nat.ltb_spec y (length prev)) as [Hlt|Hge].
    + cbn [bind]. rewrite IH.
      * rewrite length_app, length_firstn. cbn [length]. rewrite length_skipn.
        replace (Nat.min y (length prev) + S (length prev - S y))%nat
          with (length prev) by lia.
        replace (S y + length tl)%nat with (y + S (length tl))%nat by lia.
        destruct (Nat.leb_spec (y + S (length tl)) (length prev)); [|reflexivity].
        f_equal.
        rewrite firstn_app, firstn_firstn, length_firstn.
        replace (Nat.min (S y) y) with y by lia.
        replace (S y - Nat.min y (length prev))%nat with 1%nat by lia.
        cbn [firstn]. rewrite <- app_assoc. cbn [app]. f_equal. f_equal. f_equal.
        rewrite skipn_app, length_firstn.
        replace (y + S (length tl) - Nat.min y (length prev))%nat
          with (S (length tl)) by lia.
        rewrite (skipn_all2 (firstn y prev)) by (rewrite length_firstn; lia).
        cbn [app]. rewrite skipn_cons, skipn_skipn. f_equal. lia.
      * rewrite length_app, length_firstn. cbn [length]. lia.
    + cbn [bind]. destruct (Nat.leb_spec (y + S (length tl)) (length prev)); [lia|reflexivity].
Qed.

Lemma copy4_length row : length (copy4 row) = 4%nat.
Proof.
  unfold copy4. rewrite length_app, length_firstn, repeat_length. lia.
Qed.

(** X10.  The snapshot [Update] takes: for a grid of at most four rows it
    is the rows, each cut or padded with 0 to four cells, followed by empty
    rows up to four; for a grid of more than four rows the code panics. *)
Theorem snapshot_copies_four_rows g :
  snapshot g =
    (if (length g <=? 4)%nat
     then Some (map copy4 g ++ repeat [] (4 - length g))
     else None) /\
  Forall (fun row => length row = 4%nat) (map copy4 g).
Proof.
  split.
  - unfold snapshot. rewrite snapshot_rows_spec by (simpl; lia).
    cbn [Nat.add firstn app]. change (length (repeat (@nil Z) 4)) with 4%nat.
    destruct (Nat.leb_spec (length g) 4) as [H|H]; [|reflexivity].
    f_equal. f_equal.
    destruct (length g) as [|[|[|[|[|n]]]]]; reflexivity.
  - apply Forall_forall. intros row H. apply in_map_iff in H.
    destruct H as (r & <- & _). apply copy4_length.
Qed.

(** ** The first loop and the faces *)

(** X11.  The first loop of [tilt] has ended after as many iterations as
    the list has nodes: with any larger bound the loop body of [tilt] gives
    the result of [tilt_list]. *)
Theorem first_loop_ends fuel g l :
  (length l <= fuel)%nat ->
  (g1 <- merge_loop fuel g l ;; shift_loop 3 g1 l) = tilt_list g l.
Proof.
  intros H. unfold tilt_list. rewrite (merge_loop_fuel fuel g l H). reflexivity.
Qed.

Lemma first_loop_ends_witness :
  (length row0 <= 9)%nat /\
  (g1 <- merge_loop 9 sample row0 ;; shift_loop 3 g1 row0) = tilt_list sample row0.
Proof.
  split; [simpl; lia | apply (first_loop_ends 9 sample row0); simpl; lia].
Defined.

(** X12.  Each face [createBoard] builds has four lists of four nodes that
    together name every cell of the 4x4 grid exactly once; the lists of the
    right and bottom faces are those of the left and top faces reversed. *)
Theorem faces_cover_the_grid d :
  length (face_of createBoard d) = 4%nat /\
  Forall (fun l => length l = 4%nat) (face_of createBoard d) /\
  NoDup (concat (face_of createBoard d)) /\
  (forall x y, In (mkNode x y) (concat (face_of createBoard d)) <->
               (x < 4)%nat /\ (y < 4)%nat) /\
  right createBoard = map (@rev node) (left createBoard) /\
  bottom createBoard = map (@rev node) (top createBoard).
Proof.
  destruct (faces_NoDup d) as [Hnd Hls].
  split; [destruct d; reflexivity|].
  split; [eapply Forall_impl; [|exact Hls]; intros l H; exact (proj2 H)|].
  split; [exact Hnd|].
  split; [|split; reflexivity].
  intros x y. split.
  - intros H. apply in_concat in H. destruct H as (l & Hl & Hn).
    apply (all_lists_range l (mkNode x y) (in_all_lists d l Hl) Hn).
  - intros [Hx Hy].
    destruct x as [|[|[|[|x]]]]; try lia;
      destruct y as [|[|[|[|y]]]]; try lia;
      destruct d; vm_compute; tauto.
Qed.

(** ** What place does to the cells *)

Lemma place_cells b rnd b' :
  place b rnd = Some b' ->
  exists g' l1 l2,
    b' = with_grid b g' /\
    concat (grid b) = l1 ++ 0 :: l2 /\ concat g' = l1 ++ 2 :: l2 /\
    map (@length Z) g' = map (@length Z) (grid b).
Proof.
  intros H. unfold place in H.
  inv_bind H. inv_bind H. cbn [coords] in H. inv_bind H. injection H as <-.
  destruct (set_concat _ _ _ _ _ E1) as (l1 & old & l2 & Hold & Ec & Ec').
  assert (Hz : get (grid b) (nx x0) (ny x0) = Some 0)
    by (apply options_spec; eapply nth_error_In; exact E0).
  assert (old = 0) by congruence. subst old.
  destruct (set_spec _ _ _ _ _ E1) as (_ & _ & _ & Hlen).
  exists x1, l1, l2. auto.
Qed.

Lemma tiles_app l1 l2 : tiles (l1 ++ l2) = (tiles l1 + tiles l2)%nat.
Proof. unfold tiles. rewrite filter_app, length_app. reflexivity. Qed.

Lemma tiles_mid_spawn l1 l2 : tiles (l1 ++ 2 :: l2) = S (tiles (l1 ++ 0 :: l2)).
Proof. rewrite !tiles_app, (tiles_cons 2), (tiles_cons 0). cbn. lia. Qed.

Lemma zsum_mid_spawn l1 l2 : zsum (l1 ++ 2 :: l2) = zsum (l1 ++ 0 :: l2) + 2.
Proof. rewrite !zsum_app. cbn [zsum fold_right]. lia. Qed.

Lemma grid_sum_concat g : grid_sum g = zsum (concat g).
Proof.
  unfold grid_sum. induction g as [|row g IH]; [reflexivity|].
  cbn [map concat]. rewrite zsum_app, <- IH. reflexivity.
Qed.

Lemma tiles_le_length l : (tiles l <= length l)%nat.
Proof. unfold tiles. apply filter_length_le. Qed.

Lemma tiles_short_zero l : (tiles l < length l)%nat -> In 0 l.
Proof.
  induction l as [|v l IH]; [simpl; lia|].
  rewrite tiles_cons. cbn [length]. intros H.
  destruct (Z.eq_dec v 0) as [->|Hv]; [left; reflexivity|].
  right. apply IH. unfold tiles in H at 1. cbn [filter] in H.
  destruct (Z.eqb_spec v 0); [contradiction|]. cbn in H. lia.
Qed.

Lemma in_concat_get g v : In v (concat g) -> exists x y, get g x y = Some v.
Proof.
  intros H. apply in_concat in H. destruct H as (row & Hrow & Hv).
  apply In_nth_error in Hrow. destruct Hrow as (y & Hy).
  apply In_nth_error in Hv. destruct Hv as (x & Hx).
  exists x, y. unfold get. rewrite Hy. exact Hx.
Qed.

Lemma few_tiles_has_zero g : wf4 g -> (grid_tiles g < 16)%nat -> has_zero g.
Proof.
  intros Hwf H. destruct (in_concat_get g 0) as (x & y & E); [|exists x, y; exact E].
  apply tiles_short_zero. rewrite (wf4_cells g Hwf). exact H.
Qed.

(** X13.  [createModel] never panics, whatever the two draws: it returns a
    4x4 board of [createBoard] holding exactly two tiles, both 2, and 0
    elsewhere. *)
Theorem createModel_two_twos rnd1 rnd2 :
  exists g,
    createModel rnd1 rnd2 = Some (mkModel (board_of g)) /\
    wf4 g /\ grid_tiles g = 2%nat /\ grid_sum g = 4 /\
    Forall (fun v => v = 0 \/ v = 2) (concat g).
Proof.
  unfold createModel.
  assert (Hz0 : has_zero (grid createBoard)) by (exists 0%nat, 0%nat; reflexivity).
  destruct (place_some createBoard rnd1 Hz0) as (n1 & g1 & Hp1 & _ & Hs1).
  destruct (place_cells _ _ _ Hp1) as (g1' & l1 & l2 & Eb & Ec & Ec1 & Hlen1).
  assert (g1' = g1) by (exact (f_equal grid (eq_sym Eb))). subst g1'.
  assert (Hwf1 : wf4 g1) by (apply wf4_lengths; rewrite Hlen1; reflexivity).
  change (concat (grid createBoard)) with (repeat 0 16) in Ec.
  assert (T1 : grid_tiles g1 = 1%nat).
  { unfold grid_tiles. rewrite Ec1, tiles_mid_spawn, <- Ec. reflexivity. }
  assert (S1 : zsum (concat g1) = 2).
  { rewrite Ec1, zsum_mid_spawn, <- Ec. reflexivity. }
  assert (F1 : Forall (fun v => v = 0 \/ v = 2) (concat g1)).
  { rewrite Ec1. apply Forall_mid.
    assert (F0 : Forall (fun v => v = 0 \/ v = 2) (l1 ++ 0 :: l2))
      by (rewrite <- Ec; repeat constructor; auto).
    apply Forall_mid in F0. tauto. }
  rewrite Hp1. cbn [bind].
  assert (Hz1 : has_zero (grid (with_grid createBoard g1)))
    by (apply few_tiles_has_zero; [exact Hwf1 | change (grid_tiles g1 < 16)%nat; lia]).
  destruct (place_some _ rnd2 Hz1) as (n2 & g2 & Hp2 & _ & Hs2).
  destruct (place_cells _ _ _ Hp2) as (g2' & l3 & l4 & Eb2 & Ec2 & Ec3 & Hlen2).
  assert (g2' = g2) by (exact (f_equal grid (eq_sym Eb2))). subst g2'.
  cbn [grid with_grid] in Ec2, Hlen2.
  rewrite Hp2. cbn [bind]. exists g2. split; [reflexivity|].
  split; [apply wf4_lengths; rewrite Hlen2; apply wf4_lengths; exact Hwf1|].
  split; [unfold grid_tiles in *; rewrite Ec3, tiles_mid_spawn, <- Ec2, T1; reflexivity|].
  split; [rewrite grid_sum_concat, Ec3, zsum_mid_spawn, <- Ec2, S1; reflexivity|].
  rewrite Ec3. rewrite Ec2 in F1. apply Forall_mid in F1. apply Forall_mid. tauto.
Qed.

(** ** The reachable boards once more *)

Lemma tile16_range v : tile16 v -> 0 <= v <= 65536.
Proof.
  intros [->|(e & He & ->)]; [lia|].
  change 65536 with (2 ^ 16). split; [apply Z.pow_nonneg; lia|].
  apply Z.pow_le_mono_r; lia.
Qed.

(** X14.  Every reachable model holds a 4x4 board with the faces of
    [createBoard] in which no tile exceeds 65536: the doubling of [tilt]
    never overflows in a game. *)
Theorem reachable_tiles_small m :
  reachable m ->
  exists g,
    m = mkModel (board_of g) /\ wf4 g /\
    Forall (fun v => tile16 v /\ 0 <= v <= 65536) (concat g).
Proof.
  intros H. destruct (reachable_bounded m H) as (g & -> & Hwf & Ht & _).
  exists g. split; [reflexivity|]. split; [exact Hwf|].
  eapply Forall_impl; [|exact Ht]. intros v Hv. split; [exact Hv | apply tile16_range; exact Hv].
Qed.

Lemma reachable_tiles_small_witness :
  reachable after_two_moves /\
  exists g,
    after_two_moves = mkModel (board_of g) /\ wf4 g /\
    Forall (fun v => tile16 v /\ 0 <= v <= 65536) (concat g).
Proof.
  split; [exact reachable_after_two_moves|].
  apply (reachable_tiles_small after_two_moves). exact reachable_after_two_moves.
Defined.

Lemma zsum_bound M l : Forall (fun v => 0 <= v <= M) l -> 0 <= zsum l <= M * Z.of_nat (length l).
Proof.
  induction 1 as [|v l Hv _ IH]; cbn [zsum fold_right length]; [lia|].
  unfold zsum in IH. lia.
Qed.

Lemma lines_keep_sum g g' d :
  wf4 g -> wf4 g' ->
  (forall l, In l (face_of createBoard d) -> reads g' l = line (reads g l)) ->
  Forall (Forall (fun v => 0 <= v)) g ->
  grid_sum g <= int_max ->
  grid_sum g' = grid_sum g.
Proof.
  intros Hwf Hwf' Hl Hpos Hmax.
  destruct (wf4_g4 g Hwf)
    as (c00 & c01 & c02 & c03 & c10 & c11 & c12 & c13 &
        c20 & c21 & c22 & c23 & c30 & c31 & c32 & c33 & ->).
  destruct (wf4_g4 g' Hwf')
    as (e00 & e01 & e02 & e03 & e10 & e11 & e12 & e13 &
        e20 & e21 & e22 & e23 & e30 & e31 & e32 & e33 & ->).
  repeat (apply Forall_cons_iff in Hpos; destruct Hpos as [? Hpos]).
  repeat match goal with
         | H : Forall _ (_ :: _) |- _ =>
             apply Forall_cons_iff in H; destruct H as [? H]
         end.
  cbv beta in *. unfold grid_sum in *. cbn [map zsum fold_right] in *.
  destruct d;
    [explicit_face Up in Hl | explicit_face Down in Hl
     | explicit_face Left in Hl | explicit_face Right in Hl];
    four_lines Hl L0 L1 L2 L3;
    line_sum_of L0; line_sum_of L1; line_sum_of L2; line_sum_of L3; lia.
Qed.

Lemma bounded_sum_fits g :
  bounded g -> Forall (Forall (fun v => 0 <= v)) g /\ grid_sum g <= int_max.
Proof.
  intros (Hwf & Ht & _).
  assert (R : Forall (fun v => 0 <= v <= 65536) (concat g))
    by (eapply Forall_impl; [|exact Ht]; exact tile16_range).
  split.
  - apply Forall_concat. eapply Forall_impl; [|exact R]. intros v Hv; cbv beta in *; lia.
  - rewrite grid_sum_concat. pose proof (zsum_bound _ _ R) as B.
    rewrite (wf4_cells g Hwf) in B. unfold int_max, int_bits.
    change (2 ^ (64 - 1)) with 9223372036854775808. lia.
Qed.

(** X15.  From a reachable model an [Update] that returns raises the sum of
    the cells by 2 when it changes the grid and leaves it as it is
    otherwise. *)
Theorem Update_adds_two m msg rnd m' c :
  reachable m ->
  Update m msg rnd = Some (m', c) ->
  grid_sum (grid (m_board m')) =
    grid_sum (grid (m_board m)) +
    (if grid_eq_dec (grid (m_board m')) (grid (m_board m)) then 0 else 2).
Proof.
  intros Hr H. destruct (reachable_bounded m Hr) as (g & -> & Hb).
  assert (Hwf := proj1 Hb). cbn [m_board].
  change (grid (board_of g)) with g.
  destruct (Update_cases g msg rnd Hwf)
    as [E | [E | (d & g' & Ht & Hwf' & Hl & E)]]; rewrite E in H.
  - injection H as <- <-. cbn [m_board]. change (grid (board_of g)) with g.
    destruct (grid_eq_dec g g); [lia | congruence].
  - injection H as <- <-. cbn [m_board]. change (grid (board_of g)) with g.
    destruct (grid_eq_dec g g); [lia | congruence].
  - destruct (bounded_sum_fits g Hb) as [Hpos Hmax].
    assert (Hs := lines_keep_sum g g' d Hwf Hwf' Hl Hpos Hmax).
    unfold settle in H. destruct (grid_eq_dec g' g) as [->|Hne].
    + injection H as <- <-. cbn [m_board]. change (grid (board_of g)) with g.
      destruct (grid_eq_dec g g); [lia | congruence].
    + inv_bind H. injection H as <- <-. cbn [m_board].
      destruct (place_cells _ _ _ E0) as (g2 & l1 & l2 & -> & Ec & Ec2 & _).
      cbn [grid board_of with_grid] in *.
      assert (S2 : grid_sum g2 = grid_sum g + 2).
      { rewrite <- Hs, !grid_sum_concat, Ec2, Ec. apply zsum_mid_spawn. }
      destruct (grid_eq_dec g2 g) as [->|_]; lia.
Qed.

Lemma Update_adds_two_witness :
  reachable after_two_moves /\
  Update after_two_moves (KeyMsg "l"%string) 1 = Some (after_three_moves, NoCmd) /\
  grid_sum (grid (m_board after_three_moves)) =
    grid_sum (grid (m_board after_two_moves)) +
    (if grid_eq_dec (grid (m_board after_three_moves)) (grid (m_board after_two_moves))
     then 0 else 2).
Proof.
  split; [exact reachable_after_two_moves|]. split; [reflexivity|].
  apply (Update_adds_two after_two_moves (KeyMsg "l"%string) 1 after_three_moves NoCmd);
    [exact reachable_after_two_moves | reflexivity].
Defined.

(** ** Lists too short for the second loop *)

Lemma shift_loop_short n : forall g a,
  (length a < n)%nat -> shift_loop n g a = None.
Proof.
  induction n as [|n IH]; intros g a H; [lia|].
  destruct a as [|an anext]; [reflexivity|].
  cbn [shift_loop coords]. cbn [length] in H.
  destruct (get g (nx an) (ny an)) as [va|]; cbn [bind]; [|reflexivity].
  match goal with
  | |- bind ?c _ = None => destruct c as [g'|]; cbn [bind]; [|reflexivity]
  end.
  apply IH. lia.
Qed.

Lemma tilt_list_short g l : (length l < 3)%nat -> tilt_list g l = None.
Proof.
  intros H. unfold tilt_list.
  destruct (merge_loop (length l) g l) as [g1|]; cbn [bind]; [|reflexivity].
  apply shift_loop_short. exact H.
Qed.

(** X16.  [tilt] panics on every face that has a list of fewer than three
    nodes, whatever the grid: the second loop runs three times and
    dereferences the nil [next] of the last node. *)
Theorem tilt_short_list_panics b f l :
  In l f -> (length l < 3)%nat -> tilt b f = None.
Proof.
  intros Hin Hlen. unfold tilt.
  assert (E : forall g, tilt_grid g f = None).
  { induction f as [|l0 f IH]; [contradiction|]. intros g. cbn [tilt_grid].
    destruct Hin as [->|Hin].
    - rewrite (tilt_list_short g l Hlen). reflexivity.
    - destruct (tilt_list g l0) as [g1|]; cbn [bind]; [apply IH; exact Hin | reflexivity]. }
  rewrite E. reflexivity.
Qed.

Lemma tilt_short_list_panics_witness :
  In [mkNode 0 0; mkNode 1 0] [row0; [mkNode 0 0; mkNode 1 0]] /\
  (length [mkNode 0 0; mkNode 1 0] < 3)%nat /\
  tilt (board_of sample) [row0; [mkNode 0 0; mkNode 1 0]] = None.
Proof.
  split; [simpl; auto|]. split; [simpl; lia|].
  apply (tilt_short_list_panics (board_of sample) _ [mkNode 0 0; mkNode 1 0]);
    [simpl; auto | simpl; lia].
Defined.

(** ** place once more *)

(** X17.  When [place] returns, the grid has one tile more and its sum is
    2 higher, every row keeps its length and the faces are the same. *)
Theorem place_adds_one_tile b rnd b' :
  place b rnd = Some b' ->
  grid_tiles (grid b') = S (grid_tiles (grid b)) /\
  grid_sum (grid b') = grid_sum (grid b) + 2 /\
  map (@length Z) (grid b') = map (@length Z) (grid b) /\
  (top b', right b', bottom b', left b') = (top b, right b, bottom b, left b).
Proof.
  intros H. destruct (place_cells _ _ _ H) as (g' & l1 & l2 & -> & Ec & Ec' & Hlen).
  cbn [grid with_grid top right bottom left].
  split; [unfold grid_tiles; rewrite Ec', Ec; apply tiles_mid_spawn|].
  split; [rewrite !grid_sum_concat, Ec', Ec; apply zsum_mid_spawn|].
  split; [exact Hlen | reflexivity].
Qed.

Lemma place_adds_one_tile_witness :
  place (board_of sample) 9 = Some (board_of sample_spawned) /\
  grid_tiles (grid (board_of sample_spawned)) = S (grid_tiles (grid (board_of sample))) /\
  grid_sum (grid (board_of sample_spawned)) = grid_sum (grid (board_of sample)) + 2 /\
  map (@length Z) (grid (board_of sample_spawned)) =
    map (@length Z) (grid (board_of sample)) /\
  (top (board_of sample_spawned), right (board_of sample_spawned),
   bottom (board_of sample_spawned), left (board_of sample_spawned)) =
  (top (board_of sample), right (board_of sample),
   bottom (board_of sample), left (board_of sample)).
Proof.
  split; [reflexivity|].
  apply (place_adds_one_tile (board_of sample) 9). reflexivity.
Defined.
